(** * The chat gateway of the Lioraè Co. site (myApp/views.py)

    A shallow embedding of the completion-client cache, the reply
    resolver, the chat handler and the health probe of [myApp/views.py],
    with the properties the specification states about them.

    Python strings are lists of code points, the module global
    [_client_cache] lives in an explicit process state, calls that leave
    the module (the JSON reader, the OpenAI SDK, the settings object and
    the process environment) are fields of a [runtime] record, and Python
    exceptions are the [Raise] outcome of a small state-and-error monad. *)

From Stdlib Require Import ZArith NArith List Bool String Ascii Lia QArith.
From Stdlib Require Import SpecFloat.
From stdpp Require Import base gmap list strings.

Set Warnings "-register-all".
Local Open Scope N_scope.

(** ** Python strings *)

(** A [str] is a sequence of Unicode code points; [bytes] is a sequence
    of bytes. *)
Abbreviation pystr := (list N).
Abbreviation pybytes := (list Byte.byte).

Module Utf8.

(** A continuation byte, 0x80..0xBF. *)
Definition cont (b : N) : bool := (128 <=? b) && (b <=? 191).

Definition between (lo b hi : N) : bool := (lo <=? b) && (b <=? hi).

(** The strict decoder behind [bytes.decode("utf-8")]: shortest forms
    only, no surrogates, nothing above U+10FFFF. [None] stands for
    [UnicodeDecodeError]. *)
Fixpoint decode (bs : list N) : option pystr :=
  match bs with
  | [] => Some []
  | b0 :: r0 =>
    if b0 <? 128 then cons b0 <$> decode r0
    else if between 194 b0 223 then
      match r0 with
      | b1 :: r1 =>
        if cont b1
        then cons ((b0 - 192) * 64 + (b1 - 128)) <$> decode r1
        else None
      | _ => None
      end
    else if between 224 b0 239 then
      match r0 with
      | b1 :: b2 :: r2 =>
        let lo := if b0 =? 224 then 160 else 128 in
        let hi := if b0 =? 237 then 159 else 191 in
        if between lo b1 hi && cont b2
        then cons ((b0 - 224) * 4096 + (b1 - 128) * 64 + (b2 - 128))
               <$> decode r2
        else None
      | _ => None
      end
    else if between 240 b0 244 then
      match r0 with
      | b1 :: b2 :: b3 :: r3 =>
        let lo := if b0 =? 240 then 144 else 128 in
        let hi := if b0 =? 244 then 143 else 191 in
        if between lo b1 hi && cont b2 && cont b3
        then cons ((b0 - 240) * 262144 + (b1 - 128) * 4096
                   + (b2 - 128) * 64 + (b3 - 128)) <$> decode r3
        else None
      | _ => None
      end
    else None
  end.

Definition decode_bytes (bs : pybytes) : option pystr :=
  decode (map Byte.to_N bs).

End Utf8.

(** A string literal of the source: the file is UTF-8, so the literal is
    decoded the way Python reads it. *)
Definition u (s : string) : pystr :=
  default [] (Utf8.decode_bytes (list_byte_of_string s)).

(** [str.isspace] on one character (CPython's whitespace table). *)
Definition isspace (c : N) : bool :=
  Utf8.between 9 c 13 || Utf8.between 28 c 32 || (c =? 133) || (c =? 160)
  || (c =? 5760) || Utf8.between 8192 c 8202 || (c =? 8232) || (c =? 8233)
  || (c =? 8239) || (c =? 8287) || (c =? 12288).

Fixpoint lstrip (s : pystr) : pystr :=
  match s with
  | c :: r => if isspace c then lstrip r else s
  | [] => []
  end.

Definition rstrip (s : pystr) : pystr := reverse (lstrip (reverse s)).

(** [s.strip()] *)
Definition strip (s : pystr) : pystr := rstrip (lstrip s).

(** Truth value of a string: [bool(s)]. *)
Definition nonempty (s : pystr) : bool :=
  match s with [] => false | _ => true end.

(** [t in s] on strings: [t] occurs in [s] as a contiguous run. *)
Definition contains (s t : pystr) : Prop := ∃ a b, s = a ++ t ++ b.

Fixpoint starts_with (s t : pystr) {struct t} : bool :=
  match t, s with
  | [], _ => true
  | c :: t', d :: s' => (c =? d) && starts_with s' t'
  | _ :: _, [] => false
  end.

Fixpoint containsb (s t : pystr) : bool :=
  starts_with s t ||
  match s with
  | [] => false
  | _ :: s' => containsb s' t
  end.

(** ** Python values, exceptions and outcomes *)

(** What [json.loads] can return: [None], [bool], [int], [float], [str],
    [list] and [dict] (a JSON object becomes a [dict] with [str] keys). *)
Inductive value :=
| VNone
| VBool (b : bool)
| VInt (z : Z)
| VFloat (f : spec_float)
| VStr (s : pystr)
| VList (l : list value)
| VDict (d : gmap (list N) value).

Definition type_name (v : value) : string :=
  match v with
  | VNone => "NoneType"
  | VBool _ => "bool"
  | VInt _ => "int"
  | VFloat _ => "float"
  | VStr _ => "str"
  | VList _ => "list"
  | VDict _ => "dict"
  end.

(** [bool(v)]: [None], [False], zero, and empty strings and containers
    are false. *)
Definition truthy (v : value) : bool :=
  match v with
  | VNone => false
  | VBool b => b
  | VInt z => negb (z =? 0)%Z
  | VFloat (S754_zero _) => false
  | VFloat _ => true
  | VStr s => nonempty s
  | VList l => match l with [] => false | _ => true end
  | VDict d => negb (Nat.eqb (size d) 0)
  end.

(** [a or b] *)
Definition py_or (a b : value) : value := if truthy a then a else b.

(** An exception instance (of a subclass of [Exception]): its class name
    and [str(e)]. *)
Record exn := Exn { exn_class : string; exn_str : pystr }.

Definition AttributeError (ty attr : string) : exn :=
  Exn "AttributeError"
      (u ("'" +:+ ty +:+ "' object has no attribute '" +:+ attr +:+ "'")).

Definition IndexError : exn := Exn "IndexError" (u "list index out of range").

Definition UnicodeDecodeError : exn :=
  Exn "UnicodeDecodeError" (u "'utf-8' codec can't decode bytes").

Inductive result (A : Type) :=
| Ret (a : A)
| Raise (e : exn).
Arguments Ret {A} a.
Arguments Raise {A} e.

(** [data.get(key)]: only a [dict] has the method; a missing key gives
    [None]. *)
Definition get (data : value) (key : pystr) : result value :=
  match data with
  | VDict d => Ret (default VNone (d !! key))
  | _ => Raise (AttributeError (type_name data) "get")
  end.

(** [v.strip()]: only a [str] has the method. *)
Definition strip_method (v : value) : result pystr :=
  match v with
  | VStr s => Ret (strip s)
  | _ => Raise (AttributeError (type_name v) "strip")
  end.

(** ** The remote completion API and the process state *)

(** An [OpenAI] client object, opaque to this module. *)
Inductive client := Client (handle : N).

Record message := Message { role : pystr; content : pystr }.

(** The keyword arguments of [client.chat.completions.create]. *)
Record create_args := CreateArgs {
  model : pystr;
  temperature : Q;
  max_tokens : Z;
  messages : list message;
  timeout : Z
}.

(** A completion: [choices[i].message.content] is a string or [None]. *)
Record completion := Completion { choices : list (option pystr) }.

Inductive log_level := INFO | WARNING | ERROR.

(** What the process does that can be seen from outside the module, in
    order: log records, constructions of a client, remote completion
    calls; and, as call history, the entries into the reply resolver. *)
Inductive event :=
| Log (level : log_level) (msg : pystr)
| Call_OpenAI (api_key : pystr)
| Call_create (c : client) (args : create_args)
| Call_llm_reply (user_msg : pystr).

(** [_client_cache]: the sentinel (not built yet), or the cached result
    of the one attempt, a client or [None]. *)
Inductive cache :=
| _SENTINEL
| Cached (c : option client).

Record process := Process {
  _client_cache : cache;
  trace : list event
}.

(** The state of a process that has just loaded the module. *)
Definition fresh : process := Process _SENTINEL [].

(** Everything the module reaches outside itself, as it answers at the
    time of one call. *)
Record runtime := Runtime {
  (** [json.loads] *)
  json_loads : pystr → result value;
  (** the imported [OpenAI] class, [None] when the SDK is not installed *)
  OpenAI : option (pystr → result client);
  (** [getattr(settings, "OPENAI_API_KEY", None)] *)
  settings_OPENAI_API_KEY : option pystr;
  (** [os.getenv("OPENAI_API_KEY")] *)
  getenv_OPENAI_API_KEY : option pystr;
  (** [getattr(settings, "DEBUG", False)] *)
  settings_DEBUG : bool;
  (** [client.chat.completions.create(...)] *)
  chat_completions_create : client → create_args → result completion
}.

(** ** State and exceptions *)

Definition M (A : Type) : Type := process → result A * process.

Definition ret {A} (a : A) : M A := λ s, (Ret a, s).

Definition raise {A} (e : exn) : M A := λ s, (Raise e, s).

Definition bind {A B} (m : M A) (k : A → M B) : M B :=
  λ s, match m s with
       | (Ret a, s') => k a s'
       | (Raise e, s') => (Raise e, s')
       end.

Notation "'let*' x ':=' m 'in' k" := (bind m (λ x, k))
  (at level 10, x name, m at level 100, k at level 200, only parsing).
Notation "m1 ';;' m2" := (bind m1 (λ _, m2))
  (at level 100, m2 at level 200, right associativity, only parsing).

(** [try: body / except Exception as e: handler e] *)
Definition try_except {A} (body : M A) (handler : exn → M A) : M A :=
  λ s, match body s with
       | (Ret a, s') => (Ret a, s')
       | (Raise e, s') => handler e s'
       end.

Definition lift {A} (r : result A) : M A := λ s, (r, s).

Definition emit (e : event) : M unit :=
  λ s, (Ret tt, Process (_client_cache s) (trace s ++ [e])).

Definition read_cache : M cache := λ s, (Ret (_client_cache s), s).

Definition write_cache (c : cache) : M unit :=
  λ s, (Ret tt, Process c (trace s)).

Definition logger (level : log_level) (msg : pystr) : M unit :=
  emit (Log level msg).

(** ** The module: constants *)

Definition SYSTEM_PROMPT : pystr := u "
You are Liora — a warm, capable, general-purpose AI companion for Lioraè Co.
Be kind, witty, concise, and actually useful. Match the user’s tone.
Use plain language. If feelings show up, acknowledge briefly, then problem-solve.
Ask at most one short follow-up when it truly helps.

Core behavior
- Be pragmatic and specific. Offer examples, checklists, and step-wise plans.
- If you don’t know, say so and suggest a next step (search, small test, expert).
- Safety: provide general info only (no medical/legal/financial guarantees). Encourage consulting a professional when appropriate.
- Avoid hallucinated specifics; prefer plain statements, small ranges, or “it depends + how to decide”.

About Lioraè Co. (facts you can use)
- What we do: strategy-first social media + content, light automation/CRM, dashboards, and funnels/landing pages.
- Outcomes: typical engagement lift within ~1–2 months; clearer pipeline/ROI within ~3–6 months (with consistent shipping).
- Ownership: all delivered assets, sites, and customized AI tools belong to the client.
- Cadence: weekly shipping and iteration; monthly retainers; upgrade or customize anytime.
- Channels & tools we’re fluent with: Instagram, TikTok, YouTube; Meta Ads, Google Ads; Figma/Notion; Shopify/Stripe; HubSpot; Klaviyo.
- Tone/brand: clear, friendly, no fluff; strategy first, creative with soul.

Service tiers (typical inclusions; scopes can be tailored)
1) IGNITE — “Smart Social Foundations” (approx. PHP 75,000 / month)
   - ~20 posts • 25 stories • 3 reels
   - AI-assisted captions/hashtags
   - Content calendar + auto-scheduling
   - Basic landing/portfolio + hosting
   - Monthly analytics report
   - Best for startups

2) SYNC — “Social + Web Alignment” (approx. PHP 95,000 / month)
   - ~30 posts • 35 stories • 6 reels
   - Campaign strategy & funnel planning
   - Landing page optimization + CRM hookups
   - AI trend suggestions + conversion copy
   - Lead & engagement dashboard
   - Lead-gen ready

3) VISION — “AI-Enhanced Growth Engine” (approx. PHP 120,000 / month, min. 3-month plan)
   - ~25 posts • 25 stories • 8 reels
   - Predictive campaign builder
   - Social listening & competitor analysis
   - Bi-weekly analytics & retargeting
   - Advanced dashboards & automation

4) AUTHORITY — “Omnipresence + Automation” (approx. PHP 150,000 / month)
   - Thought leadership + multi-channel presence
   - Heavier automation + repurposing

5) ASCEND — “Full Growth Ecosystem” (PHP 200,000+ / month)
   - Enterprise-style scope, >50 posts across platforms, multi-funnel orchestration

Process (how we work)
1) Discover & Audit — kickoff, goals, audience, baseline.
2) Strategy — messaging, pillars, campaign roadmap.
3) Setup — stack, scheduler, CRM, pixels, analytics.
4) Ship — weekly content (AI-assisted captions, best-time posting), light automations.
5) Review & Scale — dashboards, learnings, iterate, retarget, expand winners.

FAQs (quick answers)
- Do I need a website? Not required. We can ship a starter landing page in-package.
- How does AI help? Caption drafts, best-time posting, light automations, predictive prompts, time savings.
- Social-only? Yes—start with foundations; upgrade to funnels/automation later.
- When will results show? 1–2 months for engagement lift; 3–6 months for clearer ROI signals (depends on baseline, budget, and velocity).
- Who owns what? You do. We manage and optimize on your behalf.

Working style
- Keep answers crisp; use short lists, bold keywords sparingly, and avoid jargon.
- Default to practical frameworks (e.g., “3-step test plan”, “1-week sprint plan”, “hook-body-CTA”).
- Prefer examples tailored to the user’s niche when they’ve said it; otherwise suggest 2–3 niches as placeholders.

If the user asks about Lioraè services
- Offer to map them to a tier or design a custom scope.
- Suggest a 20-min discovery call for fit/brief + draft plan (typical response ~24h).
- Contact: hello@liorae.co (or direct the user to the “Contact” section if present).

Formatting & limits
- Use plain text or light Markdown. Avoid heavy decoration or emojis unless the user uses them.
- One follow-up question max, only if it significantly improves the answer.
- If a price/timeline/spec isn’t certain, state assumptions.

Refusals & sensitive content
- Decline unsafe/illegal requests; offer a safe alternative.
- Never claim professional, guaranteed outcomes; emphasize guidance and experiments.

Short self-description for context replies
- “I’m Liora, your friendly AI from Lioraè Co.—strategy-first social, content, and light automation that turns presence into pipeline.”

".

(** The reply literals of [_llm_reply] and [chatbot_response]. *)
Definition offline_reply : pystr :=
  u "Got it. I don’t have my full AI brain connected yet. Share your main channel (IG/TikTok/LinkedIn), audience, and desired outcome, and I’ll sketch a quick plan.".

Definition blank_reply : pystr :=
  u "I blanked for a sec—mind asking that one more time?".

Definition snag_reply : pystr :=
  u "I hit a snag reaching my brain. Want to try again, or tell me the short version and I’ll help?".

Definition debug_prefix : pystr := u "(DEBUG) OpenAI error: ".

Definition nudge_reply : pystr := u "What’s on your mind?".

(** ** The module: functions *)

(** [_mask(s)]:
    [f"{s[:4]}…{s[-4:]}" if s and len(s) > 8 else ("(set)" if s else "(missing)")] *)
Definition _mask (s : pystr) : pystr :=
  if nonempty s && (8 <? length s)%nat
  then take 4 s ++ u "…" ++ drop (length s - 4)%nat s
  else if nonempty s then u "(set)" else u "(missing)".

(** Truth value of a setting or environment entry that is a string or
    [None], and [a or b] on two of them. *)
Definition key_truthy (k : option pystr) : bool :=
  match k with
  | Some s => nonempty s
  | None => false
  end.

Definition key_or (a b : option pystr) : option pystr :=
  if key_truthy a then a else b.

(** [getattr(settings, "OPENAI_API_KEY", None) or os.getenv("OPENAI_API_KEY")] *)
Definition resolve_key (rt : runtime) : option pystr :=
  key_or (settings_OPENAI_API_KEY rt) (getenv_OPENAI_API_KEY rt).

(** [_get_openai_client()] *)
Definition _get_openai_client (rt : runtime) : M (option client) :=
  let* cached := read_cache in
  match cached with
  | Cached c => ret c
  | _SENTINEL =>
    match OpenAI rt with
    | None =>
      logger WARNING (u "OpenAI SDK not installed in this environment.") ;;
      write_cache (Cached None) ;;
      ret None
    | Some new_client =>
      let key := resolve_key rt in
      if negb (key_truthy key) then
        logger WARNING
          (u "OPENAI_API_KEY not found (settings and env both empty).") ;;
        write_cache (Cached None) ;;
        ret None
      else
        let k := default [] key in
        try_except
          (let* c := (emit (Call_OpenAI k) ;; lift (new_client k)) in
           write_cache (Cached (Some c)) ;;
           logger INFO
             (u "OpenAI client initialized (key=" ++ _mask k ++ u ").") ;;
           ret (Some c))
          (λ e,
           logger ERROR (u "Failed to create OpenAI client: " ++ exn_str e) ;;
           write_cache (Cached None) ;;
           ret None)
    end
  end.

(** [l[0]] *)
Definition item0 {A} (l : list A) : result A :=
  match l with
  | x :: _ => Ret x
  | [] => Raise IndexError
  end.

(** The request [_llm_reply] builds for a user message. *)
Definition request_for (user_msg : pystr) : create_args :=
  CreateArgs (u "gpt-4o-mini") (7 # 10) 600
             [Message (u "system") SYSTEM_PROMPT;
              Message (u "user") user_msg]
             30.

(** [_llm_reply(user_msg)] *)
Definition _llm_reply (rt : runtime) (user_msg : pystr) : M pystr :=
  emit (Call_llm_reply user_msg) ;;
  let* client := _get_openai_client rt in
  match client with
  | None => ret offline_reply
  | Some c =>
    try_except
      (let args := request_for user_msg in
       let* completion :=
         (emit (Call_create c args) ;;
          lift (chat_completions_create rt c args)) in
       let* text := lift (item0 (choices completion)) in
       let reply := strip (default [] text) in
       ret (if nonempty reply then reply else blank_reply))
      (λ e,
       logger ERROR (u "OpenAI call failed") ;;
       if settings_DEBUG rt
       then ret (debug_prefix ++ exn_str e)
       else ret snag_reply)
  end.

(** ** The HTTP boundary *)

Inductive http_method := GET | HEAD | POST | PUT | DELETE | OPTIONS | PATCH.

(** A request as the server receives it: its method, the body the client
    sent (its length is the [CONTENT_LENGTH] of the request), and whether
    reading the body from the connection breaks off. *)
Record HttpRequest := Received {
  method : http_method;
  sent : pybytes;
  read_fails : bool
}.

(** A request whose body is read without an I/O error. *)
Abbreviation Request m b := (Received m b false).

(** Django's [DATA_UPLOAD_MAX_MEMORY_SIZE]; [settings.py] leaves it at
    the default. *)
Definition DATA_UPLOAD_MAX_MEMORY_SIZE : N := 2621440.

Definition RequestDataTooBig : exn :=
  Exn "RequestDataTooBig"
      (u "Request body exceeded settings.DATA_UPLOAD_MAX_MEMORY_SIZE.").

Definition UnreadablePostError : exn :=
  Exn "UnreadablePostError" (u "error reading request body").

(** [request.body], the property of Django's [HttpRequest]: it raises
    [RequestDataTooBig] when the content length exceeds
    [DATA_UPLOAD_MAX_MEMORY_SIZE], and [UnreadablePostError] when the
    read fails; otherwise it is the bytes that were sent. *)
Definition body (request : HttpRequest) : result pybytes :=
  if (DATA_UPLOAD_MAX_MEMORY_SIZE <? N.of_nat (length (sent request)))%N
  then Raise RequestDataTooBig
  else if read_fails request then Raise UnreadablePostError
  else Ret (sent request).

Inductive HttpResponse :=
| JsonResponse (data : list (pystr * value))
| HttpResponseBadRequest (content : pystr)
| HttpResponseNotAllowed (permitted : list http_method).

Definition status_code (r : HttpResponse) : Z :=
  match r with
  | JsonResponse _ => 200
  | HttpResponseBadRequest _ => 400
  | HttpResponseNotAllowed _ => 405
  end.

(** [@require_POST] *)
Definition require_POST (view : HttpRequest → M HttpResponse)
    (request : HttpRequest) : M HttpResponse :=
  match method request with
  | POST => view request
  | _ => ret (HttpResponseNotAllowed [POST])
  end.

(** [raw.decode("utf-8")] *)
Definition decode_utf8 (b : pybytes) : result pystr :=
  match Utf8.decode_bytes b with
  | Some s => Ret s
  | None => Raise UnicodeDecodeError
  end.

(** [chatbot_response(request)]. A [Raise] outcome is an exception that
    leaves the view. *)
Definition chatbot_response (rt : runtime) : HttpRequest → M HttpResponse :=
  require_POST (λ request,
    let* parsed :=
      try_except
        (let* raw := lift (body request) in
         let* text := lift (decode_utf8 raw) in
         let* data := lift (json_loads rt text) in
         ret (Some data))
        (λ _, ret None) in
    match parsed with
    | None => ret (HttpResponseBadRequest (u "Invalid JSON"))
    | Some data =>
      let* m := lift (get data (u "message")) in
      let* user_msg := lift (strip_method (py_or m (VStr []))) in
      if negb (nonempty user_msg)
      then ret (JsonResponse [(u "reply", VStr nudge_reply)])
      else
        let* reply := _llm_reply rt user_msg in
        ret (JsonResponse [(u "reply", VStr reply)])
    end).

(** [chat_health(request)] *)
Definition chat_health (rt : runtime) (request : HttpRequest)
    : M HttpResponse :=
  let key_settings := settings_OPENAI_API_KEY rt in
  let key_env := getenv_OPENAI_API_KEY rt in
  let* client := _get_openai_client rt in
  let client_ok := bool_decide (is_Some client) in
  ret (JsonResponse
         [(u "sdk_installed", VBool (bool_decide (is_Some (OpenAI rt))));
          (u "has_key_in_settings", VBool (key_truthy key_settings));
          (u "has_key_in_env", VBool (key_truthy key_env));
          (u "key_seen",
           VStr (_mask (default []
                          (key_or (key_or key_settings key_env) (Some [])))));
          (u "client_initialized", VBool client_ok);
          (u "debug", VBool (settings_DEBUG rt))]).

(** ** Observations on traces and sequences of calls *)

Definition is_construction (e : event) : bool :=
  match e with Call_OpenAI _ => true | _ => false end.

Definition is_remote_call (e : event) : bool :=
  match e with Call_create _ _ => true | _ => false end.

Definition is_resolver_entry (e : event) : bool :=
  match e with Call_llm_reply _ => true | _ => false end.

(** How many times [OpenAI(api_key=...)] was called. *)
Definition constructions (tr : list event) : nat :=
  length (filter (λ e, is_construction e = true) tr).

(** What the one building attempt of [_get_openai_client] yields under
    a runtime. *)
Definition first_attempt (rt : runtime) : option client :=
  match OpenAI rt with
  | None => None
  | Some new_client =>
    match resolve_key rt with
    | Some (c :: k) =>
      match new_client (c :: k) with
      | Ret cl => Some cl
      | Raise _ => None
      end
    | _ => None
    end
  end.

(** Successive calls of [_get_openai_client()] in one process; the
    settings, the environment and the SDK may answer differently at each
    call. *)
Fixpoint calls (rts : list runtime) (s : process)
    : list (result (option client)) * process :=
  match rts with
  | [] => ([], s)
  | rt :: rest =>
    let (r, s1) := _get_openai_client rt s in
    let (rs, s2) := calls rest s1 in
    (r :: rs, s2)
  end.

(** The value of a key of a JSON response. *)
Fixpoint field (data : list (pystr * value)) (name : pystr) : option value :=
  match data with
  | [] => None
  | (k, v) :: rest => if bool_decide (k = name) then Some v else field rest name
  end.

(** ** Example runtimes *)

(** A request body written with ['] in place of the double quote. *)
Definition json_bytes (s : string) : pybytes :=
  map (λ b, match b with Byte.x27 => Byte.x22 | _ => b end)
      (list_byte_of_string s).

Definition json_text (s : string) : pystr :=
  default [] (Utf8.decode_bytes (json_bytes s)).

Definition JSONDecodeError : exn :=
  Exn "JSONDecodeError" (u "Expecting value: line 1 column 1 (char 0)").

(** What [json.loads] returns on the bodies used in the examples. *)
Definition example_documents : list (string * value) :=
  [ ("[]", VList []);
    ("{}", VDict ∅);
    ("{'message': 5}", VDict {[ u "message" := VInt 5 ]});
    ("{'message': null}", VDict {[ u "message" := VNone ]});
    ("{'message': false}", VDict {[ u "message" := VBool false ]});
    ("{'message': ''}", VDict {[ u "message" := VStr [] ]});
    ("{'message': '   '}", VDict {[ u "message" := VStr (u "   ") ]});
    ("{'message': 'hello'}", VDict {[ u "message" := VStr (u "hello") ]});
    ("{'message': '  hello  '}",
     VDict {[ u "message" := VStr (u "  hello  ") ]}) ].

Fixpoint lookup_document (docs : list (string * value)) (text : pystr)
    : result value :=
  match docs with
  | [] => Raise JSONDecodeError
  | (k, v) :: rest =>
    if bool_decide (json_text k = text) then Ret v
    else lookup_document rest text
  end.

Definition example_loads : pystr → result value :=
  lookup_document example_documents.

Definition the_client : client := Client 1.

(** A remote model that repeats the user message of the request. *)
Definition echo (c : client) (args : create_args) : result completion :=
  match messages args with
  | [_; user] => Ret (Completion [Some (u "you said: " ++ content user)])
  | _ => Ret (Completion [])
  end.

(** No credential anywhere; the SDK is installed. *)
Definition rt_offline : runtime :=
  Runtime example_loads (Some (λ _, Ret the_client)) (Some []) None false echo.

(** A credential in the settings and a remote model that answers. *)
Definition rt_online : runtime :=
  Runtime example_loads (Some (λ _, Ret the_client))
          (Some (u "sk-test-0123456789")) None false echo.

(** A credential, and a remote call that fails with the given error
    text. *)
Definition rt_failing (debug : bool) (err : pystr) : runtime :=
  Runtime example_loads (Some (λ _, Ret the_client))
          (Some (u "sk-test-0123456789")) None debug
          (λ _ _, Raise (Exn "APIConnectionError" err)).

(** A nine-character credential whose fifth character is the ellipsis. *)
Definition rt_ellipsis_key : runtime :=
  Runtime example_loads (Some (λ _, Ret the_client))
          (Some (u "abcd…wxyz")) None false echo.

(** A string that does not begin with white space. *)
Definition starts_clean (s : pystr) : Prop :=
  match s with
  | [] => True
  | c :: _ => isspace c = false
  end.

(** The events of the one building attempt of [_get_openai_client]. *)
Definition first_attempt_events (rt : runtime) : list event :=
  match OpenAI rt with
  | None =>
    [Log WARNING (u "OpenAI SDK not installed in this environment.")]
  | Some new_client =>
    match resolve_key rt with
    | Some (c :: k) =>
      match new_client (c :: k) with
      | Ret cl =>
        [Call_OpenAI (c :: k);
         Log INFO (u "OpenAI client initialized (key=" ++ _mask (c :: k)
                   ++ u ").")]
      | Raise e =>
        [Call_OpenAI (c :: k);
         Log ERROR (u "Failed to create OpenAI client: " ++ exn_str e)]
      end
    | _ =>
      [Log WARNING
         (u "OPENAI_API_KEY not found (settings and env both empty).")]
    end
  end.

(** What [_get_openai_client] returns when the cache holds [ch], and the
    events it adds. *)
Definition yielded (rt : runtime) (ch : cache) : option client :=
  match ch with
  | _SENTINEL => first_attempt rt
  | Cached c => c
  end.

Definition yield_events (rt : runtime) (ch : cache) : list event :=
  match ch with
  | _SENTINEL => first_attempt_events rt
  | Cached _ => []
  end.

(** ** The other views of the module *)

(** [chat_send(request)], the earlier widget's endpoint: as
    [chatbot_response], without the test for an empty message. *)
Definition chat_send (rt : runtime) : HttpRequest → M HttpResponse :=
  require_POST (λ request,
    let* parsed :=
      try_except
        (let* raw := lift (body request) in
         let* text := lift (decode_utf8 raw) in
         let* data := lift (json_loads rt text) in
         ret (Some data))
        (λ _, ret None) in
    match parsed with
    | None => ret (HttpResponseBadRequest (u "Invalid JSON"))
    | Some data =>
      let* m := lift (get data (u "message")) in
      let* msg := lift (strip_method (py_or m (VStr []))) in
      let* reply := _llm_reply rt msg in
      ret (JsonResponse [(u "reply", VStr reply)])
    end).

(** [chat_start(request)] (under [@require_POST]). It reads and writes
    [request.session], a mapping from strings to values, and touches
    nothing else; [uuid4] is what [str(uuid.uuid4())] gives when it is
    needed. Returns the response and the session afterwards. *)
Definition chat_start (uuid4 : pystr) (request : HttpRequest)
    (session : gmap (list N) value) : HttpResponse * gmap (list N) value :=
  match method request with
  | POST =>
    let cid := py_or (default VNone (session !! u "chat_cid")) (VStr uuid4) in
    (JsonResponse [(u "conversation_id", cid)],
     <[ u "chat_cid" := cid ]> session)
  | _ => (HttpResponseNotAllowed [POST], session)
  end.

(** How many times [client.chat.completions.create] was called. *)
Definition remote_calls (tr : list event) : nat :=
  length (filter (λ e, is_remote_call e = true) tr).

(** A request to one of the views that use the client cache, under the
    runtime of the moment. *)
Inductive view_call :=
| To_chatbot_response (rt : runtime) (request : HttpRequest)
| To_chat_send (rt : runtime) (request : HttpRequest)
| To_chat_health (rt : runtime) (request : HttpRequest).

(** The process state after a request is served, whether the view
    returned or raised. *)
Definition serve (c : view_call) (s : process) : process :=
  match c with
  | To_chatbot_response rt request => (chatbot_response rt request s).2
  | To_chat_send rt request => (chat_send rt request s).2
  | To_chat_health rt request => (chat_health rt request s).2
  end.

Definition serve_all (cs : list view_call) (s : process) : process :=
  foldl (λ s c, serve c s) s cs.

(** ** The contact form *)

Module Contact.

(** [form.cleaned_data] of a valid [ContactForm]: one entry per field of
    the form. *)
Record cleaned_data := Cleaned {
  full_name : pystr;
  email : pystr;
  company : pystr;
  website : pystr;
  budget : pystr;
  timeline : pystr;
  services : list pystr;
  message : pystr;
  hp : pystr
}.

(** An [EmailMultiAlternatives] as [contact_submit] builds it. *)
Record EmailMultiAlternatives := Email {
  subject : pystr;
  body : pystr;
  from_email : pystr;
  to : list pystr;
  reply_to : list pystr;
  alternatives : list (pystr * pystr)
}.

(** What [contact_submit] reaches outside the module. *)
Record runtime := Runtime {
  (** [ContactForm(request.POST)]: the cleaned data when [is_valid()],
      [None] otherwise *)
  ContactForm : HttpRequest → option cleaned_data;
  (** [render_to_string(template_name, {"d": cd})] *)
  render_to_string : pystr → cleaned_data → result pystr;
  (** [msg.send(fail_silently=False)] *)
  send : EmailMultiAlternatives → result unit;
  (** [settings.DEFAULT_FROM_EMAIL] *)
  DEFAULT_FROM_EMAIL : pystr;
  (** [getattr(settings, "CONTACT_RECIPIENT", None)] *)
  CONTACT_RECIPIENT : option pystr
}.

(** [redirect(url)] *)
Inductive HttpResponseRedirect := Redirect (url : pystr).

Definition status_code (r : HttpResponseRedirect) : Z := 302.

(** The state is the list of messages handed to [send], in order. *)
Definition Mail (A : Type) : Type :=
  list EmailMultiAlternatives → result A * list EmailMultiAlternatives.

Definition mail_ret {A} (a : A) : Mail A := λ out, (Ret a, out).

Definition mail_bind {A B} (m : Mail A) (k : A → Mail B) : Mail B :=
  λ out, match m out with
         | (Ret a, out') => k a out'
         | (Raise e, out') => (Raise e, out')
         end.

Notation "'do*' x ':=' m 'in' k" := (mail_bind m (λ x, k))
  (at level 10, x name, m at level 100, k at level 200, only parsing).

Definition pure {A} (r : result A) : Mail A := λ out, (r, out).

Definition send_message (rt : runtime) (m : EmailMultiAlternatives)
    : Mail unit :=
  λ out, (send rt m, out ++ [m]).

(** The subject of the team notification:
    [f"[New Inquiry] {cd['full_name']} — {cd.get('company','').strip() or 'No company'}"] *)
Definition subject_team (cd : cleaned_data) : pystr :=
  u "[New Inquiry] " ++ full_name cd ++ u " — "
  ++ (if nonempty (strip (company cd)) then strip (company cd)
      else u "No company").

(** [msg_client], the acknowledgement to the sender, with its HTML
    alternative attached. *)
Definition msg_client (rt : runtime) (cd : cleaned_data)
    (html_client text_client : pystr) : EmailMultiAlternatives :=
  Email (u "We got your inquiry — Lioraè Co.") text_client
        (DEFAULT_FROM_EMAIL rt) [email cd] []
        [(html_client, u "text/html")].

(** [msg_team], the notification to the team. *)
Definition msg_team (rt : runtime) (cd : cleaned_data)
    (html_team text_team : pystr) : EmailMultiAlternatives :=
  Email (subject_team cd) text_team (DEFAULT_FROM_EMAIL rt)
        [default (u "hello@liorae.co") (CONTACT_RECIPIENT rt)]
        [email cd] [(html_team, u "text/html")].

(** [contact_submit(request)] *)
Definition contact_submit (rt : runtime) (request : HttpRequest)
    : Mail HttpResponseRedirect :=
  match method request with
  | POST =>
    match ContactForm rt request with
    | None => mail_ret (Redirect (u "/#contact?ok=0"))
    | Some cd =>
      if nonempty (hp cd) then mail_ret (Redirect (u "/#contact?ok=0"))
      else
        do* html_client :=
          pure (render_to_string rt (u "emails/contact_email_client.html") cd) in
        do* text_client :=
          pure (render_to_string rt (u "emails/contact_email_client.txt") cd) in
        do* _ := send_message rt (msg_client rt cd html_client text_client) in
        do* html_team :=
          pure (render_to_string rt (u "emails/contact_email_team.html") cd) in
        do* text_team :=
          pure (render_to_string rt (u "emails/contact_email_team.txt") cd) in
        do* _ := send_message rt (msg_team rt cd html_team text_team) in
        mail_ret (Redirect (u "/#contact?ok=1"))
    end
  | _ => mail_ret (Redirect (u "/#contact"))
  end.

(** Example: a form that validates to a fixed inquiry, templates that
    render to their own name, and a mail server that accepts or refuses
    everything. *)
Definition inquiry (company hp : pystr) : cleaned_data :=
  Cleaned (u "Amira") (u "amira@example.com") company (u "")
          (u "75-120") (u "1m") [u "Content"; u "Reels"]
          (u "Tell me about SYNC.") hp.

Definition rt_example (cd : cleaned_data) (smtp_up : bool) : runtime :=
  Runtime (λ _, Some cd) (λ name _, Ret name)
          (λ _, if smtp_up then Ret tt
                else Raise (Exn "SMTPException" (u "connection refused")))
          (u "webmaster@localhost") None.

End Contact.

(** ** More example runtimes *)

(** A credential, and a remote model that answers with no choice at
    all. *)
Definition rt_no_choices (debug : bool) : runtime :=
  Runtime example_loads (Some (λ _, Ret the_client))
          (Some (u "sk-test-0123456789")) None debug
          (λ _ _, Ret (Completion [])).

(** What [json.loads] returns on bodies whose message is false in a
    condition without being [null] or [false]. *)
Definition falsy_documents : list (string * value) :=
  [ ("{'message': 0}", VDict {[ u "message" := VInt 0 ]});
    ("{'message': 0.0}", VDict {[ u "message" := VFloat (S754_zero false) ]});
    ("{'message': []}", VDict {[ u "message" := VList [] ]});
    ("{'message': {}}", VDict {[ u "message" := VDict ∅ ]}) ].

Definition rt_falsy : runtime :=
  Runtime (lookup_document falsy_documents) (Some (λ _, Ret the_client))
          (Some (u "sk-test-0123456789")) None false echo.

(** How the state may move from [s] to [s']: the trace grows by some
    events; a filled cache stays as it is and no client is constructed;
    an unbuilt cache stays unbuilt with no construction, or gets filled
    with at most one. *)
Definition settles (s s' : process) : Prop :=
  ∃ evs,
    trace s' = trace s ++ evs
    ∧ match _client_cache s with
      | Cached c => _client_cache s' = Cached c ∧ constructions evs = 0%nat
      | _SENTINEL =>
        (_client_cache s' = _SENTINEL ∧ constructions evs = 0%nat)
        ∨ ((∃ c, _client_cache s' = Cached c)
           ∧ (constructions evs ≤ 1)%nat)
      end.

(** ** Bodies over the upload limit *)

(** As many copies of one byte as the upload limit allows. *)
Definition padding (c : Byte.byte) : pybytes :=
  replicate (N.to_nat DATA_UPLOAD_MAX_MEMORY_SIZE) c.

(** The JSON object whose message is a run of spaces, too long for the
    limit. *)
Definition oversized_blank : pybytes :=
  json_bytes "{'message': '" ++ padding Byte.x20 ++ json_bytes "'}".


(** * Properties *)

(** ** Strings *)

Section Strings.

Lemma lstrip_starts_clean s : starts_clean (lstrip s).
Proof.
  induction s as [|c r IH]; simpl; [exact I|].
  destruct (isspace c) eqn:E; [exact IH | exact E].
Qed.

Lemma lstrip_clean s : starts_clean s → lstrip s = s.
Proof. destruct s as [|c r]; simpl; [done|]. by intros ->. Qed.

Lemma lstrip_idem s : lstrip (lstrip s) = lstrip s.
Proof. apply lstrip_clean, lstrip_starts_clean. Qed.

Lemma lstrip_suffix s : ∃ p, s = p ++ lstrip s.
Proof.
  induction s as [|c r [p IH]]; [by exists []|]. simpl.
  destruct (isspace c).
  - exists (c :: p). simpl. by rewrite <- IH.
  - by exists [].
Qed.

Lemma rstrip_prefix s : ∃ q, s = rstrip s ++ q.
Proof.
  unfold rstrip. destruct (lstrip_suffix (reverse s)) as [p Hp].
  exists (reverse p).
  rewrite <- reverse_app, <- Hp. by rewrite reverse_involutive.
Qed.

Lemma rstrip_idem s : rstrip (rstrip s) = rstrip s.
Proof. unfold rstrip. by rewrite reverse_involutive, lstrip_idem. Qed.

Lemma rstrip_starts_clean s : starts_clean s → starts_clean (rstrip s).
Proof.
  intros H. destruct (rstrip_prefix s) as [q Hq].
  destruct (rstrip s) as [|c r]; [exact I|].
  rewrite Hq in H. exact H.
Qed.

Lemma strip_starts_clean s : starts_clean (strip s).
Proof. apply rstrip_starts_clean, lstrip_starts_clean. Qed.

(** Trimming a trimmed string changes nothing. *)
Lemma strip_idem s : strip (strip s) = strip s.
Proof.
  unfold strip at 1.
  rewrite (lstrip_clean (strip s)) by apply strip_starts_clean.
  unfold strip. apply rstrip_idem.
Qed.

Lemma nonempty_false s : nonempty s = false ↔ s = [].
Proof. by destruct s. Qed.

Lemma nonempty_true s : nonempty s = true ↔ s ≠ [].
Proof. by destruct s. Qed.

Lemma starts_with_spec s t : starts_with s t = true ↔ ∃ b, s = t ++ b.
Proof.
  revert s. induction t as [|c t IH]; intros s; simpl.
  - split; [by exists s | done].
  - destruct s as [|d s]; [split; [done | by intros [b Hb]]|].
    rewrite andb_true_iff, N.eqb_eq, IH. split.
    + intros [-> [b ->]]. by exists b.
    + intros [b Hb]. injection Hb as -> ->. eauto.
Qed.

(** The executable test decides [contains]. *)
Lemma containsb_spec s t : containsb s t = true ↔ contains s t.
Proof.
  unfold contains. induction s as [|d s IH]; simpl.
  - rewrite orb_false_r, starts_with_spec. split.
    + intros [b Hb]. by exists [], b.
    + intros [a [b Hab]]. destruct a; [by exists b|done].
  - rewrite orb_true_iff, starts_with_spec, IH. split.
    + intros [[b Hb] | [a [b Hab]]].
      * by exists [], b.
      * exists (d :: a), b. simpl. by rewrite Hab.
    + intros [[|x a] [b Hab]].
      * left. by exists b.
      * right. injection Hab as -> ->. by exists a, b.
Qed.

Lemma contains_longer s t : (length s < length t)%nat → ¬ contains s t.
Proof.
  intros Hlt [a [b Hab]]. rewrite Hab, !length_app in Hlt. lia.
Qed.

End Strings.

(** ** The client cache *)

Section ClientCache.

Lemma get_client_cached rt s c :
  _client_cache s = Cached c → _get_openai_client rt s = (Ret c, s).
Proof.
  intros H. unfold _get_openai_client, bind, read_cache. by rewrite H.
Qed.

Lemma get_client_unbuilt rt tr :
  _get_openai_client rt (Process _SENTINEL tr)
  = (Ret (first_attempt rt),
     Process (Cached (first_attempt rt)) (tr ++ first_attempt_events rt)).
Proof.
  unfold _get_openai_client, first_attempt, first_attempt_events, bind,
    read_cache, try_except, logger, emit, write_cache, lift, ret.
  simpl. destruct (OpenAI rt) as [new_client|]; [|done].
  destruct (resolve_key rt) as [[|c k]|]; simpl; [done| |done].
  destruct (new_client (c :: k)); simpl; by rewrite <- app_assoc.
Qed.

(** The accessor never raises, and leaves the cache holding what it
    returned. *)
Lemma get_client_returns rt s :
  ∃ c evs,
    _get_openai_client rt s = (Ret c, Process (Cached c) (trace s ++ evs))
    ∧ Forall (λ e, is_remote_call e = false ∧ is_resolver_entry e = false)
             evs.
Proof.
  destruct s as [[|c] tr].
  - exists (first_attempt rt), (first_attempt_events rt).
    split; [apply get_client_unbuilt|].
    unfold first_attempt_events.
    destruct (OpenAI rt) as [new_client|]; [|by repeat constructor].
    destruct (resolve_key rt) as [[|a k]|]; [by repeat constructor| |
      by repeat constructor].
    destruct (new_client (a :: k)); by repeat constructor.
  - exists c, []. split; [|constructor].
    rewrite (get_client_cached rt _ c) by done. simpl.
    by rewrite app_nil_r.
Qed.

Lemma calls_cached rts s c :
  _client_cache s = Cached c →
  calls rts s = (replicate (length rts) (Ret c), s).
Proof.
  intros H. induction rts as [|rt rts IH]; [done|]. simpl.
  rewrite (get_client_cached rt s c H), IH. done.
Qed.

Lemma constructions_first_attempt rt :
  (constructions (first_attempt_events rt) ≤ 1)%nat.
Proof.
  unfold first_attempt_events.
  destruct (OpenAI rt) as [new_client|]; [|by vm_compute; lia].
  destruct (resolve_key rt) as [[|a k]|]; [by vm_compute; lia| |
    by vm_compute; lia].
  destruct (new_client (a :: k)); unfold constructions; simpl; lia.
Qed.

End ClientCache.

(** C2. In any sequence of calls of [_get_openai_client] in one process,
    whatever the settings, the environment and the SDK answer at each of
    them, only the first call does anything: it attempts the construction
    at most once and caches the outcome, and every call returns that
    same outcome, leaving the state as the first call left it. The
    outcome is [None] when the SDK is missing, when no credential is
    found, or when the construction raises, and the built client
    otherwise. *)
Theorem client_built_at_most_once (rt : runtime) (rts : list runtime)
    (tr : list event) :
  ∃ c evs,
    _get_openai_client rt (Process _SENTINEL tr)
    = (Ret c, Process (Cached c) (tr ++ evs))
    ∧ calls (rt :: rts) (Process _SENTINEL tr)
      = (replicate (S (length rts)) (Ret c), Process (Cached c) (tr ++ evs))
    ∧ (constructions evs ≤ 1)%nat
    ∧ (OpenAI rt = None → c = None ∧ constructions evs = 0%nat)
    ∧ (key_truthy (resolve_key rt) = false →
       c = None ∧ constructions evs = 0%nat)
    ∧ (∀ new_client k,
         OpenAI rt = Some new_client → resolve_key rt = Some k → k ≠ [] →
         constructions evs = 1%nat
         ∧ match new_client k with
           | Ret cl => c = Some cl
           | Raise _ => c = None
           end).
Proof.
  exists (first_attempt rt), (first_attempt_events rt).
  pose proof (get_client_unbuilt rt tr) as Hfirst.
  split; [exact Hfirst|]. split.
  { simpl. rewrite Hfirst.
    rewrite (calls_cached rts _ (first_attempt rt)) by done. done. }
  split; [apply constructions_first_attempt|].
  unfold first_attempt, first_attempt_events. split; [|split].
  - by intros ->.
  - intros Hkey. destruct (OpenAI rt); [|done].
    destruct (resolve_key rt) as [[|a k]|]; done.
  - intros new_client k -> -> Hk. destruct k as [|a k]; [done|].
    by destruct (new_client (a :: k)).
Qed.

(** C9. The credential is the [OPENAI_API_KEY] setting when that is
    present and not empty, and the environment variable of the same name
    otherwise; it is what the client is constructed with; and when both
    are absent or empty the accessor returns [None] without raising and
    without attempting a construction. *)
Theorem credential_prefers_settings (rt : runtime) :
  (key_truthy (settings_OPENAI_API_KEY rt) = true →
   resolve_key rt = settings_OPENAI_API_KEY rt)
  ∧ (key_truthy (settings_OPENAI_API_KEY rt) = false →
     resolve_key rt = getenv_OPENAI_API_KEY rt)
  ∧ (∀ new_client tr,
       OpenAI rt = Some new_client →
       key_truthy (resolve_key rt) = true →
       ∃ k rest,
         resolve_key rt = Some k
         ∧ trace (_get_openai_client rt (Process _SENTINEL tr)).2
           = tr ++ Call_OpenAI k :: rest)
  ∧ (∀ tr,
       key_truthy (settings_OPENAI_API_KEY rt) = false →
       key_truthy (getenv_OPENAI_API_KEY rt) = false →
       ∃ evs,
         _get_openai_client rt (Process _SENTINEL tr)
         = (Ret None, Process (Cached None) (tr ++ evs))
         ∧ constructions evs = 0%nat).
Proof.
  unfold resolve_key, key_or. split; [|split; [|split]].
  - by intros ->.
  - by intros ->.
  - intros new_client tr HSDK Hkey.
    rewrite get_client_unbuilt. unfold first_attempt_events, resolve_key, key_or.
    rewrite HSDK. simpl.
    destruct (if key_truthy (settings_OPENAI_API_KEY rt)
              then settings_OPENAI_API_KEY rt
              else getenv_OPENAI_API_KEY rt) as [[|a k]|]; [done| |done].
    destruct (new_client (a :: k)); eauto.
  - intros tr Hs He. exists (first_attempt_events rt).
    rewrite get_client_unbuilt.
    unfold first_attempt, first_attempt_events, resolve_key, key_or.
    rewrite Hs. destruct (OpenAI rt); [|done].
    destruct (getenv_OPENAI_API_KEY rt) as [[|a k]|]; done.
Qed.

(** ** The reply resolver *)

Section ReplyResolver.

Lemma get_client_eq rt ch tr :
  _get_openai_client rt (Process ch tr)
  = (Ret (yielded rt ch),
     Process (Cached (yielded rt ch)) (tr ++ yield_events rt ch)).
Proof.
  destruct ch as [|c]; simpl.
  - apply get_client_unbuilt.
  - rewrite (get_client_cached rt _ c) by done. by rewrite app_nil_r.
Qed.

Lemma get_client_fst rt s :
  (_get_openai_client rt s).1 = Ret (yielded rt (_client_cache s)).
Proof. destruct s as [ch tr]. by rewrite get_client_eq. Qed.

Lemma yield_events_quiet rt ch :
  Forall (λ e, is_remote_call e = false) (yield_events rt ch).
Proof.
  destruct ch as [|c]; simpl; [|constructor].
  unfold first_attempt_events.
  destruct (OpenAI rt) as [new_client|]; [|by repeat constructor].
  destruct (resolve_key rt) as [[|a k]|]; [by repeat constructor| |
    by repeat constructor].
  destruct (new_client (a :: k)); by repeat constructor.
Qed.

(** The reply when no client is available. *)
Lemma llm_reply_offline rt msg ch tr :
  yielded rt ch = None →
  _llm_reply rt msg (Process ch tr)
  = (Ret offline_reply,
     Process (Cached None)
             (tr ++ Call_llm_reply msg :: yield_events rt ch)).
Proof.
  intros H. unfold _llm_reply, bind, emit. simpl.
  rewrite get_client_eq, H. simpl. by rewrite <- app_assoc.
Qed.

(** The reply when a client is available, by the outcome of the remote
    call. *)
Lemma llm_reply_online rt msg ch tr c :
  yielded rt ch = Some c →
  let before :=
    tr ++ Call_llm_reply msg :: yield_events rt ch
       ++ [Call_create c (request_for msg)] in
  let failed e :=
    (Ret (if settings_DEBUG rt then debug_prefix ++ exn_str e
          else snag_reply),
     Process (Cached (Some c))
             (before ++ [Log ERROR (u "OpenAI call failed")])) in
  _llm_reply rt msg (Process ch tr)
  = match chat_completions_create rt c (request_for msg) with
    | Ret (Completion (text :: _)) =>
      (Ret (if nonempty (strip (default [] text))
            then strip (default [] text) else blank_reply),
       Process (Cached (Some c)) before)
    | Ret (Completion []) => failed IndexError
    | Raise e => failed e
    end.
Proof.
  intros H before failed. subst before failed.
  unfold _llm_reply, bind, emit, try_except, lift, logger, emit, ret.
  simpl. rewrite get_client_eq, H. simpl.
  rewrite <- !app_assoc. simpl.
  destruct (chat_completions_create rt c (request_for msg))
    as [[[|text rest]]|e]; simpl.
  - rewrite <- !app_assoc. simpl.
    by destruct (settings_DEBUG rt); rewrite <- ?app_assoc.
  - done.
  - rewrite <- !app_assoc. simpl.
    by destruct (settings_DEBUG rt); rewrite <- ?app_assoc.
Qed.

Lemma snag_reply_nonempty : snag_reply ≠ [].
Proof. by vm_compute. Qed.

Lemma blank_reply_nonempty : blank_reply ≠ [].
Proof. by vm_compute. Qed.

Lemma offline_reply_nonempty : offline_reply ≠ [].
Proof. by vm_compute. Qed.

Lemma debug_reply_nonempty e : debug_prefix ++ exn_str e ≠ [].
Proof. by vm_compute. Qed.

(** The five forms a reply can take. *)
Lemma llm_reply_cases rt user_msg s :
∃ reply s',
  _llm_reply rt user_msg s = (Ret reply, s')
  ∧ (reply = offline_reply ∨ reply = blank_reply ∨ reply = snag_reply
     ∨ (∃ e, reply = debug_prefix ++ exn_str e)
     ∨ (∃ text, reply = strip text ∧ nonempty (strip text) = true)).
Proof.
destruct s as [ch tr].
destruct (yielded rt ch) as [c|] eqn:Hc.
- rewrite (llm_reply_online rt user_msg ch tr c Hc).
  destruct (chat_completions_create rt c (request_for user_msg))
    as [[[|text rest]]|e].
  + eexists _, _. split; [done|]. destruct (settings_DEBUG rt); eauto 6.
  + eexists _, _. split; [done|].
    destruct (nonempty (strip (default [] text))) eqn:E; eauto 8.
  + eexists _, _. split; [done|]. destruct (settings_DEBUG rt); eauto 6.
- rewrite (llm_reply_offline rt user_msg ch tr Hc). eauto 6.
Qed.

Lemma reply_case_nonempty reply :
reply = offline_reply ∨ reply = blank_reply ∨ reply = snag_reply
∨ (∃ e, reply = debug_prefix ++ exn_str e)
∨ (∃ text, reply = strip text ∧ nonempty (strip text) = true) →
reply ≠ [].
Proof.
intros [-> | [-> | [-> | [[e ->] | [text [-> H]]]]]].
- apply offline_reply_nonempty.
- apply blank_reply_nonempty.
- apply snag_reply_nonempty.
- apply debug_reply_nonempty.
- by apply nonempty_true.
Qed.

(** Every call of the resolver leaves its entry in the trace. *)
Lemma llm_reply_marks rt user_msg s :
∃ evs, trace (_llm_reply rt user_msg s).2
       = trace s ++ Call_llm_reply user_msg :: evs.
Proof.
destruct s as [ch tr].
destruct (yielded rt ch) as [c|] eqn:Hc.
- rewrite (llm_reply_online rt user_msg ch tr c Hc).
  destruct (chat_completions_create rt c (request_for user_msg))
    as [[[|text rest]]|e]; simpl; rewrite <- ?app_assoc; simpl; eauto.
- rewrite (llm_reply_offline rt user_msg ch tr Hc). simpl. eauto.
Qed.

Lemma llm_reply_changes_state rt user_msg s :
(_llm_reply rt user_msg s).2 ≠ s.
Proof.
destruct (llm_reply_marks rt user_msg s) as [evs H]. intros Heq.
rewrite Heq in H. apply (f_equal length) in H.
rewrite length_app in H. simpl in H. lia.
Qed.

End ReplyResolver.

(** C3. Whatever the message, the state of the cache and the outcome of
    the remote call (a text, an empty or missing text, no choice at all,
    or a raised exception), [_llm_reply] returns, and returns a string
    that is not empty. *)
Theorem llm_reply_returns_nonempty (rt : runtime) (user_msg : pystr)
    (s : process) :
  ∃ reply s',
    _llm_reply rt user_msg s = (Ret reply, s') ∧ reply ≠ [].
Proof.
  destruct (llm_reply_cases rt user_msg s) as (reply & s' & Hrun & Hcase).
  exists reply, s'. split; [exact Hrun|].
  by apply reply_case_nonempty.
Qed.

(** C4. When the client cache yields no client, [_llm_reply] returns the
    fixed offline reply, the same for every message, and makes no remote
    call; that reply asks for the channel, the audience and the desired
    outcome and promises a quick plan. *)
Theorem llm_reply_offline_fallback (rt : runtime) (user_msg : pystr)
    (s : process) :
  (_get_openai_client rt s).1 = Ret None →
  (∃ evs,
     _llm_reply rt user_msg s
     = (Ret offline_reply, Process (Cached None) (trace s ++ evs))
     ∧ Forall (λ e, is_remote_call e = false) evs)
  ∧ contains offline_reply (u "channel")
  ∧ contains offline_reply (u "audience")
  ∧ contains offline_reply (u "desired outcome")
  ∧ contains offline_reply (u "quick plan").
Proof.
  intros H. rewrite get_client_fst in H. injection H as H.
  destruct s as [ch tr]. simpl in H. split.
  - rewrite (llm_reply_offline rt user_msg ch tr H). eexists. split; [done|].
    constructor; [done | apply yield_events_quiet].
  - repeat split; by apply containsb_spec; vm_compute.
Qed.

Lemma llm_reply_offline_fallback_witness :
  (∃ evs,
     _llm_reply rt_offline (u "plan my launch") fresh
     = (Ret offline_reply, Process (Cached None) (trace fresh ++ evs))
     ∧ Forall (λ e, is_remote_call e = false) evs)
  ∧ contains offline_reply (u "channel")
  ∧ contains offline_reply (u "audience")
  ∧ contains offline_reply (u "desired outcome")
  ∧ contains offline_reply (u "quick plan").
Proof.
  apply (llm_reply_offline_fallback rt_offline (u "plan my launch") fresh).
  vm_compute. reflexivity.
Defined.

(** C5, as the code has it. When the remote call raises, [_llm_reply]
    logs the failure and returns: with the debug flag off, the fixed
    apology, whatever the error text is; with the debug flag on, the
    debug prefix followed by the error text, which therefore contains
    the error text. *)
Theorem llm_reply_remote_failure (rt : runtime) (user_msg : pystr)
    (s : process) (c : client) (e : exn) :
  (_get_openai_client rt s).1 = Ret (Some c) →
  chat_completions_create rt c (request_for user_msg) = Raise e →
  ∃ reply s',
    _llm_reply rt user_msg s = (Ret reply, s')
    ∧ (settings_DEBUG rt = false → reply = snag_reply)
    ∧ (settings_DEBUG rt = true →
       reply = debug_prefix ++ exn_str e ∧ contains reply (exn_str e))
    ∧ In (Log ERROR (u "OpenAI call failed")) (trace s').
Proof.
  intros Hc He. rewrite get_client_fst in Hc. injection Hc as Hc.
  destruct s as [ch tr]. simpl in Hc.
  rewrite (llm_reply_online rt user_msg ch tr c Hc), He.
  eexists _, _. split; [done|]. split; [|split].
  - by intros ->.
  - intros ->. split; [done|]. exists debug_prefix, []. by rewrite app_nil_r.
  - simpl. apply in_or_app. right. by left.
Qed.

Lemma llm_reply_remote_failure_witness :
  ∃ reply s',
    _llm_reply (rt_failing true (u "timed out")) (u "hello") fresh
    = (Ret reply, s')
    ∧ (true = false → reply = snag_reply)
    ∧ (true = true →
       reply = debug_prefix ++ u "timed out"
       ∧ contains reply (u "timed out"))
    ∧ In (Log ERROR (u "OpenAI call failed")) (trace s').
Proof.
  apply (llm_reply_remote_failure (rt_failing true (u "timed out"))
           (u "hello") fresh the_client
           (Exn "APIConnectionError" (u "timed out"))).
  - vm_compute. reflexivity.
  - reflexivity.
Defined.

(** C5, as stated, fails: with the debug flag off and a remote call that
    raises an error whose text is "brain", the reply is the fixed
    apology, and the apology contains that text. *)
Lemma snag_reply_may_contain_error_text :
  settings_DEBUG (rt_failing false (u "brain")) = false
  ∧ chat_completions_create (rt_failing false (u "brain")) the_client
      (request_for (u "hello"))
    = Raise (Exn "APIConnectionError" (u "brain"))
  ∧ (_llm_reply (rt_failing false (u "brain")) (u "hello") fresh).1
    = Ret snag_reply
  ∧ contains snag_reply (u "brain").
Proof.
  split; [done|]. split; [done|]. split; [by vm_compute|].
  by apply containsb_spec; vm_compute.
Qed.

(** ** The chat handler *)

Section ChatHandler.

(** Reading the body of a request. *)
Lemma body_too_big request :
(DATA_UPLOAD_MAX_MEMORY_SIZE < N.of_nat (length (sent request)))%N →
body request = Raise RequestDataTooBig.
Proof. intros H. unfold body. by apply N.ltb_lt in H as ->. Qed.

Lemma body_within_limit m b :
(N.of_nat (length b) ≤ DATA_UPLOAD_MAX_MEMORY_SIZE)%N →
body (Request m b) = Ret b.
Proof.
intros H. unfold body. cbn [sent read_fails].
by apply N.ltb_ge in H as ->.
Qed.

Lemma body_read request b :
body request = Ret b →
b = sent request
∧ (N.of_nat (length b) ≤ DATA_UPLOAD_MAX_MEMORY_SIZE)%N
∧ read_fails request = false.
Proof.
unfold body.
destruct (DATA_UPLOAD_MAX_MEMORY_SIZE <? N.of_nat (length (sent request)))%N
  eqn:E; [done|].
destruct (read_fails request); [done|]. intros [= <-].
by apply N.ltb_ge in E.
Qed.

Lemma body_of_intact m b b' :
body (Request m b) = Ret b' → b' = b.
Proof. intros H. by apply body_read in H as [-> _]. Qed.

(** The handler on a POST whose body was read and parsed. *)
Lemma chatbot_response_parsed rt request b text data s :
method request = POST →
body request = Ret b →
Utf8.decode_bytes b = Some text →
json_loads rt text = Ret data →
chatbot_response rt request s
= match get data (u "message") with
  | Raise e => (Raise e, s)
  | Ret m =>
    match strip_method (py_or m (VStr [])) with
    | Raise e => (Raise e, s)
    | Ret user_msg =>
      if nonempty user_msg
      then (let* reply := _llm_reply rt user_msg in
            ret (JsonResponse [(u "reply", VStr reply)])) s
      else (Ret (JsonResponse [(u "reply", VStr nudge_reply)]), s)
    end
  end.
Proof.
intros Hm Hr Hb Ht.
unfold chatbot_response, require_POST, try_except, bind, lift,
  decode_utf8, ret.
rewrite Hm, Hr, Hb, Ht.
destruct (get data (u "message")) as [m|e]; [|done].
destruct (strip_method (py_or m (VStr []))) as [user_msg|e]; [|done].
by destruct (nonempty user_msg).
Qed.

(** The handler on a POST whose body cannot be read, is not UTF-8 or is
    not JSON. *)
Lemma chatbot_response_unparsed rt request s :
method request = POST →
match body request with
| Raise _ => True
| Ret b =>
  match Utf8.decode_bytes b with
  | None => True
  | Some text => ∃ e, json_loads rt text = Raise e
  end
end →
chatbot_response rt request s
= (Ret (HttpResponseBadRequest (u "Invalid JSON")), s).
Proof.
intros Hm H.
unfold chatbot_response, require_POST, try_except, bind, lift,
  decode_utf8, ret.
rewrite Hm. destruct (body request) as [b|e0]; [|done].
destruct (Utf8.decode_bytes b) as [text|]; [|done].
destruct H as [e He]. by rewrite He.
Qed.

(** A body that parses to anything but an object makes the handler
    raise. *)
Lemma chatbot_response_non_object rt request b text data s :
method request = POST →
body request = Ret b →
Utf8.decode_bytes b = Some text →
json_loads rt text = Ret data →
(∀ d, data ≠ VDict d) →
chatbot_response rt request s
= (Raise (AttributeError (type_name data) "get"), s).
Proof.
intros Hm Hr Hb Ht Hd.
rewrite (chatbot_response_parsed rt request b text data s Hm Hr Hb Ht).
destruct data; try done. by destruct (Hd d).
Qed.

(** So does a message that is true in a condition and not a string:
    a non-zero number, [true], a non-empty array or object. *)
Lemma chatbot_response_non_string rt request b text d v s :
method request = POST →
body request = Ret b →
Utf8.decode_bytes b = Some text →
json_loads rt text = Ret (VDict d) →
d !! u "message" = Some v →
truthy v = true →
(∀ m, v ≠ VStr m) →
chatbot_response rt request s
= (Raise (AttributeError (type_name v) "strip"), s).
Proof.
intros Hm Hr Hb Ht Hv Htrue Hstr.
rewrite (chatbot_response_parsed rt request b text _ s Hm Hr Hb Ht).
simpl. rewrite Hv. simpl. unfold py_or. rewrite Htrue.
destruct v; try done. by destruct (Hstr s0).
Qed.

(** An object whose message is a string, is missing, or is false in a
    condition gets status 200 and a reply that is a non-empty
    string. *)
Lemma chatbot_response_well_shaped rt request b text d s :
method request = POST →
body request = Ret b →
Utf8.decode_bytes b = Some text →
json_loads rt text = Ret (VDict d) →
match d !! u "message" with
| Some (VStr _) | None => True
| Some v => truthy v = false
end →
∃ reply s',
  chatbot_response rt request s
  = (Ret (JsonResponse [(u "reply", VStr reply)]), s')
  ∧ reply ≠ [].
Proof.
intros Hm Hr Hb Ht Hv.
rewrite (chatbot_response_parsed rt request b text _ s Hm Hr Hb Ht). simpl.
assert (∃ m, py_or (default VNone (d !! u "message")) (VStr []) = VStr m)
  as [m ->].
{ unfold py_or. destruct (d !! u "message") as [v|]; simpl; [|by eexists].
  destruct v; simpl in *; rewrite ?Hv; try by eexists.
  by destruct (nonempty s0); eexists. }
simpl. destruct (nonempty (strip m)) eqn:E.
- destruct (llm_reply_cases rt (strip m) s)
    as (reply & s' & Hrun & Hcase).
  exists reply, s'. unfold bind. rewrite Hrun.
  split; [done | by apply reply_case_nonempty].
- eexists _, _. split; [done|]. by vm_compute.
Qed.

(** A message that is a string, empty once trimmed, gets the nudge, and
    the state is left as it was. *)
Lemma chatbot_response_blank rt request b text d m s :
method request = POST →
body request = Ret b →
Utf8.decode_bytes b = Some text →
json_loads rt text = Ret (VDict d) →
d !! u "message" = Some (VStr m) →
strip m = [] →
chatbot_response rt request s
= (Ret (JsonResponse [(u "reply", VStr nudge_reply)]), s).
Proof.
intros Hm Hr Hb Ht Hv Hstrip.
rewrite (chatbot_response_parsed rt request b text _ s Hm Hr Hb Ht). simpl.
rewrite Hv. simpl.
assert (py_or (VStr m) (VStr []) = VStr m ∨ py_or (VStr m) (VStr []) = VStr [])
  as [-> | ->] by (unfold py_or; destruct (truthy (VStr m)); auto).
- simpl. by rewrite Hstrip.
- done.
Qed.

(** The length of a body padded up to the limit. *)
Lemma length_padding c :
N.of_nat (length (padding c)) = DATA_UPLOAD_MAX_MEMORY_SIZE.
Proof. unfold padding. by rewrite length_replicate, N2Nat.id. Qed.

Lemma oversized_body (head tail : pybytes) c :
head ≠ [] →
(DATA_UPLOAD_MAX_MEMORY_SIZE
 < N.of_nat (length (head ++ padding c ++ tail)))%N.
Proof.
intros Hne. rewrite !length_app, !Nat2N.inj_add, length_padding.
destruct head; [done|]. simpl length. lia.
Qed.

End ChatHandler.

(** C1, on two bodies that parse as JSON: the array [[]] and the object
    [{"message": 5}]. The handler raises [AttributeError] on both, so no
    [{ reply }] answer with status 200 is produced. *)
Theorem chatbot_response_raises_on_parsed_bodies :
  json_loads rt_offline (json_text "[]") = Ret (VList [])
  ∧ chatbot_response rt_offline (Request POST (json_bytes "[]")) fresh
    = (Raise (AttributeError "list" "get"), fresh)
  ∧ json_loads rt_offline (json_text "{'message': 5}")
    = Ret (VDict {[ u "message" := VInt 5 ]})
  ∧ chatbot_response rt_offline
      (Request POST (json_bytes "{'message': 5}")) fresh
    = (Raise (AttributeError "int" "strip"), fresh).
Proof.
  split; [done|]. split.
  { apply (chatbot_response_non_object _ _ (json_bytes "[]")
             (json_text "[]") (VList [])); done. }
  split; [by vm_compute|].
  apply (chatbot_response_non_string _ _ (json_bytes "{'message': 5}")
           (json_text "{'message': 5}")
           {[ u "message" := VInt 5 ]} (VInt 5)); done.
Qed.

(** C6, as the code has it. A POST whose body is read (it is within the
    upload limit and the read does not fail) and is a JSON object with a
    message that is a string, empty once trimmed, gets status 200 and
    the reply [nudge_reply], the literal of the source, whose apostrophe
    is the typographic U+2019. The process state is left as it was: the
    reply resolver, which marks the trace whenever it is entered and is
    the only caller of the remote API, was not called. *)
Theorem empty_message_gets_nudge (rt : runtime) (request : HttpRequest)
    (b : pybytes) (text : pystr) (d : gmap (list N) value) (m : pystr)
    (s : process) :
  method request = POST →
  body request = Ret b →
  Utf8.decode_bytes b = Some text →
  json_loads rt text = Ret (VDict d) →
  d !! u "message" = Some (VStr m) →
  strip m = [] →
  chatbot_response rt request s
  = (Ret (JsonResponse [(u "reply", VStr nudge_reply)]), s)
  ∧ status_code (JsonResponse [(u "reply", VStr nudge_reply)]) = 200%Z
  ∧ nudge_reply = u "What’s on your mind?"
  ∧ Forall (λ e, is_resolver_entry e = false ∧ is_remote_call e = false)
           (drop (length (trace s))
                 (trace (chatbot_response rt request s).2))
  ∧ (∀ user_msg, (_llm_reply rt user_msg s).2 ≠ s).
Proof.
  intros Hpost Hr Hb Ht Hm Hstrip.
  rewrite (chatbot_response_blank rt request b text d m s
             Hpost Hr Hb Ht Hm Hstrip).
  split; [done|]. split; [done|]. split; [done|]. split.
  - simpl. rewrite drop_all. constructor.
  - intros user_msg. apply llm_reply_changes_state.
Qed.

Lemma empty_message_gets_nudge_witness :
  chatbot_response rt_online
    (Request POST (json_bytes "{'message': '   '}")) fresh
  = (Ret (JsonResponse [(u "reply", VStr nudge_reply)]), fresh)
  ∧ status_code (JsonResponse [(u "reply", VStr nudge_reply)]) = 200%Z
  ∧ nudge_reply = u "What’s on your mind?"
  ∧ Forall (λ e, is_resolver_entry e = false ∧ is_remote_call e = false)
           (drop (length (trace fresh))
                 (trace (chatbot_response rt_online
                           (Request POST (json_bytes "{'message': '   '}"))
                           fresh).2))
  ∧ (∀ user_msg, (_llm_reply rt_online user_msg fresh).2 ≠ fresh).
Proof.
  apply (empty_message_gets_nudge rt_online
           (Request POST (json_bytes "{'message': '   '}"))
           (json_bytes "{'message': '   '}")
           (json_text "{'message': '   '}")
           {[ u "message" := VStr (u "   ") ]} (u "   ") fresh).
  - reflexivity.
  - vm_compute. reflexivity.
  - reflexivity.
  - vm_compute. reflexivity.
  - vm_compute. reflexivity.
  - vm_compute. reflexivity.
Defined.

(** C6, as stated, fails twice. The reply to an empty message is not the
    text with the plain apostrophe: the source writes U+2019. And a
    POST whose message is a run of spaces longer than the upload limit
    is answered with 400 "Invalid JSON", not with the nudge:
    [request.body] raises inside the [try]. *)
Lemma blank_message_may_get_400 :
  chatbot_response rt_online
    (Request POST (json_bytes "{'message': ''}")) fresh
  = (Ret (JsonResponse [(u "reply", VStr nudge_reply)]), fresh)
  ∧ nudge_reply ≠ u "What's on your mind?"
  ∧ (DATA_UPLOAD_MAX_MEMORY_SIZE < N.of_nat (length oversized_blank))%N
  ∧ chatbot_response rt_online (Request POST oversized_blank) fresh
    = (Ret (HttpResponseBadRequest (u "Invalid JSON")), fresh)
  ∧ status_code (HttpResponseBadRequest (u "Invalid JSON")) = 400%Z.
Proof.
  assert (DATA_UPLOAD_MAX_MEMORY_SIZE < N.of_nat (length oversized_blank))%N
    as Hbig by (apply oversized_body; by vm_compute).
  split.
  { apply (chatbot_response_blank rt_online _
             (json_bytes "{'message': ''}") (json_text "{'message': ''}")
             {[ u "message" := VStr [] ]} []);
      first [reflexivity | by vm_compute]. }
  split; [by vm_compute|]. split; [exact Hbig|]. split; [|reflexivity].
  apply chatbot_response_unparsed; [reflexivity|].
  by rewrite (body_too_big (Request POST oversized_blank) Hbig).
Qed.




(** C7, as the code has it. The trimming is done by the handler, before
    the resolver is called: two POSTs whose bodies are read and whose
    messages are a string and its trimmed form get the same answer and
    leave the same state, and when the trimmed message is not empty the
    resolver is called with it, so the user message of the remote
    request is the trimmed one. *)
Theorem chatbot_response_trims_message (rt : runtime)
    (request1 request2 : HttpRequest) (b1 b2 : pybytes)
    (text1 text2 : pystr) (d1 d2 : gmap (list N) value)
    (m : pystr) (s : process) :
  method request1 = POST →
  body request1 = Ret b1 →
  Utf8.decode_bytes b1 = Some text1 →
  json_loads rt text1 = Ret (VDict d1) →
  d1 !! u "message" = Some (VStr m) →
  method request2 = POST →
  body request2 = Ret b2 →
  Utf8.decode_bytes b2 = Some text2 →
  json_loads rt text2 = Ret (VDict d2) →
  d2 !! u "message" = Some (VStr (strip m)) →
  chatbot_response rt request1 s = chatbot_response rt request2 s
  ∧ (strip m ≠ [] →
     chatbot_response rt request1 s
     = (let* reply := _llm_reply rt (strip m) in
        ret (JsonResponse [(u "reply", VStr reply)])) s).
Proof.
  intros Hp1 Hr1 Hb1 Ht1 Hm1 Hp2 Hr2 Hb2 Ht2 Hm2.
  assert (∀ x, strip_method (py_or (VStr x) (VStr [])) = Ret (strip x)) as Hor.
  { intros x. unfold py_or. by destruct x. }
  rewrite (chatbot_response_parsed rt request1 b1 text1 _ s Hp1 Hr1 Hb1 Ht1).
  rewrite (chatbot_response_parsed rt request2 b2 text2 _ s Hp2 Hr2 Hb2 Ht2).
  simpl. rewrite Hm1, Hm2. simpl. rewrite !Hor, strip_idem.
  split; [done|].
  intros Hne. apply nonempty_true in Hne. by rewrite Hne.
Qed.

Lemma chatbot_response_trims_message_witness :
  chatbot_response rt_online
    (Request POST (json_bytes "{'message': '  hello  '}")) fresh
  = chatbot_response rt_online
      (Request POST (json_bytes "{'message': 'hello'}")) fresh
  ∧ (strip (u "  hello  ") ≠ [] →
     chatbot_response rt_online
       (Request POST (json_bytes "{'message': '  hello  '}")) fresh
     = (let* reply := _llm_reply rt_online (strip (u "  hello  ")) in
        ret (JsonResponse [(u "reply", VStr reply)])) fresh).
Proof.
  apply (chatbot_response_trims_message rt_online
           (Request POST (json_bytes "{'message': '  hello  '}"))
           (Request POST (json_bytes "{'message': 'hello'}"))
           (json_bytes "{'message': '  hello  '}")
           (json_bytes "{'message': 'hello'}")
           (json_text "{'message': '  hello  '}")
           (json_text "{'message': 'hello'}")
           {[ u "message" := VStr (u "  hello  ") ]}
           {[ u "message" := VStr (u "hello") ]}
           (u "  hello  ") fresh).
  - reflexivity.
  - vm_compute. reflexivity.
  - reflexivity.
  - vm_compute. reflexivity.
  - vm_compute. reflexivity.
  - reflexivity.
  - vm_compute. reflexivity.
  - reflexivity.
  - vm_compute. reflexivity.
  - vm_compute. reflexivity.
Defined.

(** C7, as stated, fails: the resolver does not trim. Called with
    "  hello  " it sends that string, spaces included, as the user
    message, and with a remote model that repeats the user message its
    reply is not the reply it gives for "hello". *)
Lemma llm_reply_does_not_trim :
  strip (u "  hello  ") = u "hello"
  ∧ (_llm_reply rt_online (u "  hello  ") fresh).1
    = Ret (u "you said:   hello")
  ∧ (_llm_reply rt_online (u "hello") fresh).1 = Ret (u "you said: hello")
  ∧ u "you said:   hello" ≠ u "you said: hello"
  ∧ last (trace (_llm_reply rt_online (u "  hello  ") fresh).2)
    = Some (Call_create the_client (request_for (u "  hello  ")))
  ∧ messages (request_for (u "  hello  "))
    = [Message (u "system") SYSTEM_PROMPT;
       Message (u "user") (u "  hello  ")].
Proof.
  split; [by vm_compute|]. split; [by vm_compute|]. split; [by vm_compute|].
  split; [by vm_compute|]. split; [|done].
  vm_compute. reflexivity.
Qed.

(** ** The masked preview and the health probe *)

Section Mask.

Lemma mask_long s :
  (8 < length s)%nat →
  _mask s = take 4 s ++ [8230] ++ drop (length s - 4)%nat s.
Proof.
  intros H. unfold _mask.
  assert (nonempty s = true) as -> by (destruct s; [simpl in H; lia | done]).
  by apply Nat.ltb_lt in H as ->.
Qed.

Lemma mask_long_length s : (8 < length s)%nat → length (_mask s) = 9%nat.
Proof.
  intros H. rewrite (mask_long s H).
  rewrite !length_app, length_take, length_drop.
  change (length [8230]) with 1%nat. lia.
Qed.

Lemma mask_short s :
  (0 < length s ≤ 8)%nat → _mask s = u "(set)".
Proof.
  intros [H0 H8]. unfold _mask.
  assert (nonempty s = true) as -> by (destruct s; [simpl in H0; lia | done]).
  assert ((8 <? length s)%nat = false) as -> by (apply Nat.ltb_ge; lia).
  done.
Qed.

Lemma mask_empty : _mask [] = u "(missing)".
Proof. done. Qed.

(** The preview of a long credential is the credential itself exactly
    when the credential has nine characters, the fifth being the
    ellipsis. *)
Lemma mask_fixpoint s :
  (8 < length s)%nat →
  _mask s = s ↔ length s = 9%nat ∧ s !! 4%nat = Some 8230.
Proof.
  intros H. split.
  - intros Heq.
    assert (length s = 9%nat) as Hlen
      by (rewrite <- Heq at 1; by apply mask_long_length).
    split; [done|].
    rewrite <- Heq, (mask_long s H).
    rewrite lookup_app_r; rewrite length_take; [|lia].
    by replace (4 - 4 `min` length s)%nat with 0%nat by lia.
  - intros [Hlen H4]. rewrite (mask_long s H), Hlen. simpl.
    rewrite <- (take_drop 4 s) at 3.
    by rewrite (drop_S s 8230 4 H4).
Qed.

End Mask.

(** C8, as the code has it. For a credential of more than 8 characters
    the preview is its first 4 characters, the ellipsis and its last 4
    characters, 9 characters in all; it equals the credential only when
    the credential has 9 characters with the ellipsis as the fifth, and a
    credential of more than 9 characters does not occur in it. A
    credential of 1 to 8 characters gives the literal "(set)" and an
    empty one "(missing)". In the answer of the health probe the field
    [key_seen] is this preview of the credential chosen as the settings
    first, then the environment, and every other field is a boolean. *)
Theorem mask_and_health_probe :
  (∀ s : pystr,
     ((8 < length s)%nat →
      _mask s = take 4 s ++ [8230] ++ drop (length s - 4)%nat s
      ∧ length (_mask s) = 9%nat
      ∧ (_mask s = s ↔ length s = 9%nat ∧ s !! 4%nat = Some 8230)
      ∧ ((9 < length s)%nat → _mask s ≠ s ∧ ¬ contains (_mask s) s))
     ∧ ((0 < length s ≤ 8)%nat → _mask s = u "(set)")
     ∧ (s = [] → _mask s = u "(missing)"))
  ∧ (∀ (rt : runtime) (request : HttpRequest) (st : process),
       ∃ data st',
         chat_health rt request st = (Ret (JsonResponse data), st')
         ∧ field data (u "key_seen")
           = Some (VStr (_mask (default []
                                  (key_or (resolve_key rt) (Some [])))))
         ∧ (∀ name v,
              field data name = Some v →
              name = u "key_seen" ∨ ∃ b, v = VBool b)).
Proof.
  split.
  - intros s. split; [|split].
    + intros H. split; [by apply mask_long|].
      split; [by apply mask_long_length|].
      split; [by apply mask_fixpoint|].
      intros H9. split.
      * intros Heq. apply (mask_fixpoint s H) in Heq. lia.
      * apply contains_longer. rewrite (mask_long_length s H). lia.
    + apply mask_short.
    + intros ->. apply mask_empty.
  - intros rt request [ch tr]. unfold chat_health, bind, ret.
    rewrite get_client_eq. eexists _, _. split; [done|]. split.
    + done.
    + intros name v. unfold field.
      repeat case_bool_decide; intros Hv; simplify_eq; eauto.
Qed.

(** C8, as stated, fails on the credential "abcd…wxyz": it has 9
    characters, its preview is the credential itself, and that is what
    the health probe reports as [key_seen]. *)
Lemma mask_may_equal_credential :
  length (u "abcd…wxyz") = 9%nat
  ∧ _mask (u "abcd…wxyz") = u "abcd…wxyz"
  ∧ resolve_key rt_ellipsis_key = Some (u "abcd…wxyz")
  ∧ ∃ data st',
      chat_health rt_ellipsis_key (Request GET []) fresh
      = (Ret (JsonResponse data), st')
      ∧ field data (u "key_seen") = Some (VStr (u "abcd…wxyz")).
Proof.
  split; [by vm_compute|]. split; [by vm_compute|]. split; [by vm_compute|].
  eexists _, _. split; [by vm_compute|]. by vm_compute.
Qed.

(** * Further properties of the module *)

(** ** The client cache in any state *)

Lemma constructions_app tr1 tr2 :
  constructions (tr1 ++ tr2) = (constructions tr1 + constructions tr2)%nat.
Proof. unfold constructions. by rewrite filter_app, length_app. Qed.

Lemma remote_calls_app tr1 tr2 :
  remote_calls (tr1 ++ tr2) = (remote_calls tr1 + remote_calls tr2)%nat.
Proof. unfold remote_calls. by rewrite filter_app, length_app. Qed.

Lemma remote_calls_yield_events rt ch :
  remote_calls (yield_events rt ch) = 0%nat.
Proof.
  destruct ch as [|c]; [|done]. simpl. unfold first_attempt_events.
  destruct (OpenAI rt) as [new_client|]; [|done].
  destruct (resolve_key rt) as [[|a k]|]; [done| |done].
  by destruct (new_client (a :: k)).
Qed.

Lemma constructions_yield_events rt ch :
  (constructions (yield_events rt ch) ≤ 1)%nat
  ∧ (∀ c, ch = Cached c → constructions (yield_events rt ch) = 0%nat).
Proof.
  split; [|by intros c ->].
  destruct ch as [|c]; [apply constructions_first_attempt | simpl].
  unfold constructions. simpl. lia.
Qed.

(** X1. [_get_openai_client] returns normally in every state and under
    every runtime, a raising constructor included; afterwards the cache
    holds exactly the value returned, so it is never the sentinel again;
    a cache that was already filled is returned as it is, with no event;
    and the accessor never calls the remote completion API. *)
Theorem get_openai_client_never_raises (rt : runtime) (s : process) :
  ∃ c evs,
    _get_openai_client rt s = (Ret c, Process (Cached c) (trace s ++ evs))
    ∧ (constructions evs ≤ 1)%nat
    ∧ remote_calls evs = 0%nat
    ∧ (∀ c0, _client_cache s = Cached c0 → c = c0 ∧ evs = []).
Proof.
  destruct s as [ch tr]. rewrite get_client_eq.
  exists (yielded rt ch), (yield_events rt ch). split; [done|].
  split; [apply constructions_yield_events|].
  split; [apply remote_calls_yield_events|].
  simpl. by intros c0 ->.
Qed.

(** ** One remote call at most *)

Lemma remote_calls_mark_and_yield rt ch user_msg :
  remote_calls (Call_llm_reply user_msg :: yield_events rt ch) = 0%nat.
Proof.
  change (Call_llm_reply user_msg :: yield_events rt ch)
    with ([Call_llm_reply user_msg] ++ yield_events rt ch).
  by rewrite remote_calls_app, remote_calls_yield_events.
Qed.

(** The events one call of the resolver adds. *)
Lemma llm_reply_events rt user_msg ch tr :
  ∃ tail,
    trace (_llm_reply rt user_msg (Process ch tr)).2
    = tr ++ (Call_llm_reply user_msg :: yield_events rt ch) ++ tail
    ∧ _client_cache (_llm_reply rt user_msg (Process ch tr)).2
      = Cached (yielded rt ch)
    ∧ match yielded rt ch with
      | None => tail = []
      | Some c =>
        tail = [Call_create c (request_for user_msg)]
        ∨ tail = [Call_create c (request_for user_msg);
                  Log ERROR (u "OpenAI call failed")]
      end.
Proof.
  destruct (yielded rt ch) as [c|] eqn:Hc.
  - rewrite (llm_reply_online rt user_msg ch tr c Hc).
    destruct (chat_completions_create rt c (request_for user_msg))
      as [[[|text rest]]|e]; simpl.
    + exists [Call_create c (request_for user_msg);
              Log ERROR (u "OpenAI call failed")].
      split; [|split; [done | by right]].
      by repeat (rewrite <- ?app_assoc; simpl).
    + exists [Call_create c (request_for user_msg)].
      split; [|split; [done | by left]].
      by repeat (rewrite <- ?app_assoc; simpl).
    + exists [Call_create c (request_for user_msg);
              Log ERROR (u "OpenAI call failed")].
      split; [|split; [done | by right]].
      by repeat (rewrite <- ?app_assoc; simpl).
  - rewrite (llm_reply_offline rt user_msg ch tr Hc). simpl.
    exists []. by rewrite app_nil_r.
Qed.

(** X2. One call of [_llm_reply] makes at most one remote call, whatever
    the outcome (there is no retry): exactly one when the cache yields a
    client and none otherwise; and the request it sends is the one built
    from the message it was given. *)
Theorem llm_reply_calls_remote_at_most_once (rt : runtime)
    (user_msg : pystr) (s : process) :
  ∃ evs,
    trace (_llm_reply rt user_msg s).2 = trace s ++ evs
    ∧ (remote_calls evs ≤ 1)%nat
    ∧ (remote_calls evs = 1%nat
       ↔ ∃ c, (_get_openai_client rt s).1 = Ret (Some c))
    ∧ (∀ c args,
         In (Call_create c args) evs →
         args = request_for user_msg
         ∧ (_get_openai_client rt s).1 = Ret (Some c)).
Proof.
  destruct s as [ch tr]. rewrite get_client_fst. simpl.
  destruct (llm_reply_events rt user_msg ch tr) as (tail & Htr & _ & Htail).
  eexists. split; [exact Htr|].
  rewrite remote_calls_app, remote_calls_mark_and_yield.
  assert (∀ c args, In (Call_create c args)
                       (Call_llm_reply user_msg :: yield_events rt ch) →
                    False) as Hquiet.
  { intros c args [Hin|Hin]; [done|].
    pose proof (yield_events_quiet rt ch) as Hq.
    rewrite Forall_forall in Hq. apply list_elem_of_In in Hin.
    by specialize (Hq _ Hin). }
  destruct (yielded rt ch) as [c|].
  - assert (remote_calls tail = 1%nat) as ->
      by (by destruct Htail as [-> | ->]).
    split; [lia|]. split; [split; [by eauto | done]|].
    intros c' args Hin. apply in_app_or in Hin as [Hin|Hin].
    { by destruct (Hquiet _ _ Hin). }
    destruct Htail as [-> | ->]; simpl in Hin;
      destruct Hin as [Hin|Hin]; try done;
      try (by injection Hin as <- <-);
      by destruct Hin.
  - subst tail. change (remote_calls []) with 0%nat.
    split; [lia|]. split.
    + split; [lia | by intros [c Hc]].
    + intros c args Hin. apply in_app_or in Hin as [Hin|Hin]; [|done].
      by destruct (Hquiet _ _ Hin).
Qed.

(** ** The reply on a completion *)

Lemma blank_reply_trimmed : strip blank_reply = blank_reply.
Proof. by vm_compute. Qed.

(** X3. When a client is available and the remote call returns a
    completion with at least one choice, the reply is the text of the
    first choice, trimmed; when that text is missing or blank the reply
    is the fixed "I blanked" line. Either way the reply carries no white
    space at its ends, and the other choices are ignored. *)
Theorem llm_reply_trims_completion (rt : runtime) (user_msg : pystr)
    (s : process) (c : client) (text : option pystr)
    (rest : list (option pystr)) :
  (_get_openai_client rt s).1 = Ret (Some c) →
  chat_completions_create rt c (request_for user_msg)
  = Ret (Completion (text :: rest)) →
  ∃ reply s',
    _llm_reply rt user_msg s = (Ret reply, s')
    ∧ (strip (default [] text) ≠ [] → reply = strip (default [] text))
    ∧ (strip (default [] text) = [] → reply = blank_reply)
    ∧ strip reply = reply.
Proof.
  intros Hc Hr. rewrite get_client_fst in Hc. injection Hc as Hc.
  destruct s as [ch tr]. simpl in Hc.
  rewrite (llm_reply_online rt user_msg ch tr c Hc), Hr.
  eexists _, _. split; [done|].
  destruct (nonempty (strip (default [] text))) eqn:E.
  - apply nonempty_true in E. split; [done|]. split; [done|].
    apply strip_idem.
  - apply nonempty_false in E. split; [done|]. split; [done|].
    apply blank_reply_trimmed.
Qed.

Lemma llm_reply_trims_completion_witness :
  ∃ reply s',
    _llm_reply rt_online (u "  hello ") fresh = (Ret reply, s')
    ∧ (strip (default [] (Some (u "you said:   hello "))) ≠ [] →
       reply = strip (default [] (Some (u "you said:   hello "))))
    ∧ (strip (default [] (Some (u "you said:   hello "))) = [] →
       reply = blank_reply)
    ∧ strip reply = reply.
Proof.
  apply (llm_reply_trims_completion rt_online (u "  hello ") fresh
           the_client (Some (u "you said:   hello ")) []).
  - vm_compute. reflexivity.
  - vm_compute. reflexivity.
Defined.

(** X4. A completion with no choice at all is handled as a failed call:
    the error is logged and the reply is the fixed apology, or, with the
    debug flag on, the debug prefix followed by the text of the
    [IndexError]. *)
Theorem llm_reply_no_choice_is_failure (rt : runtime) (user_msg : pystr)
    (s : process) (c : client) :
  (_get_openai_client rt s).1 = Ret (Some c) →
  chat_completions_create rt c (request_for user_msg)
  = Ret (Completion []) →
  ∃ s',
    _llm_reply rt user_msg s
    = (Ret (if settings_DEBUG rt
            then debug_prefix ++ u "list index out of range"
            else snag_reply), s')
    ∧ last (trace s') = Some (Log ERROR (u "OpenAI call failed")).
Proof.
  intros Hc Hr. rewrite get_client_fst in Hc. injection Hc as Hc.
  destruct s as [ch tr]. simpl in Hc.
  rewrite (llm_reply_online rt user_msg ch tr c Hc), Hr.
  eexists. split; [done|]. simpl. apply last_snoc.
Qed.

Lemma llm_reply_no_choice_is_failure_witness :
  ∃ s',
    _llm_reply (rt_no_choices false) (u "hello") fresh
    = (Ret (if settings_DEBUG (rt_no_choices false)
            then debug_prefix ++ u "list index out of range"
            else snag_reply), s')
    ∧ last (trace s') = Some (Log ERROR (u "OpenAI call failed")).
Proof.
  apply (llm_reply_no_choice_is_failure (rt_no_choices false) (u "hello")
           fresh the_client).
  - vm_compute. reflexivity.
  - reflexivity.
Defined.

(** ** The two chat endpoints *)

Section ChatEndpoints.

Lemma chat_send_parsed rt request b text data s :
method request = POST →
body request = Ret b →
Utf8.decode_bytes b = Some text →
json_loads rt text = Ret data →
chat_send rt request s
= match get data (u "message") with
  | Raise e => (Raise e, s)
  | Ret m =>
    match strip_method (py_or m (VStr [])) with
    | Raise e => (Raise e, s)
    | Ret msg =>
      (let* reply := _llm_reply rt msg in
       ret (JsonResponse [(u "reply", VStr reply)])) s
    end
  end.
Proof.
intros Hm Hr Hb Ht.
unfold chat_send, require_POST, try_except, bind, lift, decode_utf8, ret.
rewrite Hm, Hr, Hb, Ht.
destruct (get data (u "message")) as [m|e]; [|done].
by destruct (strip_method (py_or m (VStr []))) as [msg|e].
Qed.

Lemma chat_send_unparsed rt request s :
method request = POST →
match body request with
| Raise _ => True
| Ret b =>
  match Utf8.decode_bytes b with
  | None => True
  | Some text => ∃ e, json_loads rt text = Raise e
  end
end →
chat_send rt request s
= (Ret (HttpResponseBadRequest (u "Invalid JSON")), s).
Proof.
intros Hm H.
unfold chat_send, require_POST, try_except, bind, lift, decode_utf8, ret.
rewrite Hm. destruct (body request) as [b|e0]; [|done].
destruct (Utf8.decode_bytes b) as [text|]; [|done].
destruct H as [e He]. by rewrite He.
Qed.

(** The state after the resolver's reply is wrapped in a response. *)
Lemma reply_response_state rt msg s :
((let* reply := _llm_reply rt msg in
  ret (JsonResponse [(u "reply", VStr reply)])) s).2
= (_llm_reply rt msg s).2.
Proof.
unfold bind, ret. by destruct (_llm_reply rt msg s) as [[reply|e] s'].
Qed.

(** What the two views have in common: the outcome of reading and
    parsing the body. *)
Lemma unparsed_or_parsed rt request :
match body request with
| Raise _ => True
| Ret b =>
  match Utf8.decode_bytes b with
  | None => True
  | Some text => ∃ e, json_loads rt text = Raise e
  end
end
∨ ∃ b text data,
    body request = Ret b ∧ Utf8.decode_bytes b = Some text
    ∧ json_loads rt text = Ret data.
Proof.
destruct (body request) as [b|e0]; [|by left].
destruct (Utf8.decode_bytes b) as [text|] eqn:Hb; [|by left].
destruct (json_loads rt text) as [data|e] eqn:Ht; [|by left; exists e].
right. by exists b, text, data.
Qed.

End ChatEndpoints.

(** X5. A POST whose body is not valid UTF-8, or is text that
    [json.loads] rejects, gets status 400 with the plain text
    "Invalid JSON" from [chatbot_response] and from [chat_send] alike,
    and the process state is left untouched. *)
Theorem bad_body_gets_400 (rt : runtime) (b : pybytes) (s : process) :
  Utf8.decode_bytes b = None
  ∨ (∃ text e, Utf8.decode_bytes b = Some text
               ∧ json_loads rt text = Raise e) →
  chatbot_response rt (Request POST b) s
  = (Ret (HttpResponseBadRequest (u "Invalid JSON")), s)
  ∧ chat_send rt (Request POST b) s
    = (Ret (HttpResponseBadRequest (u "Invalid JSON")), s)
  ∧ status_code (HttpResponseBadRequest (u "Invalid JSON")) = 400%Z.
Proof.
  intros H.
  assert (match body (Request POST b) with
          | Raise _ => True
          | Ret b' =>
            match Utf8.decode_bytes b' with
            | None => True
            | Some text => ∃ e, json_loads rt text = Raise e
            end
          end) as H'.
  { destruct (body (Request POST b)) as [b'|e0] eqn:Hr; [|done].
    apply body_of_intact in Hr as ->.
    destruct H as [-> | (text & e & -> & He)]; [done | by exists e]. }
  split; [by apply chatbot_response_unparsed|].
  split; [by apply chat_send_unparsed | done].
Qed.

Lemma bad_body_gets_400_witness :
  chatbot_response rt_online (Request POST [Byte.xff; Byte.xfe]) fresh
  = (Ret (HttpResponseBadRequest (u "Invalid JSON")), fresh)
  ∧ chat_send rt_online (Request POST [Byte.xff; Byte.xfe]) fresh
    = (Ret (HttpResponseBadRequest (u "Invalid JSON")), fresh)
  ∧ status_code (HttpResponseBadRequest (u "Invalid JSON")) = 400%Z.
Proof.
  apply (bad_body_gets_400 rt_online [Byte.xff; Byte.xfe] fresh).
  left. reflexivity.
Defined.

(** X6. A POST whose body is read (within the upload limit, the read
    not failing) and parses to an object in which the message is a
    string, is missing, or is false in a condition always gets status
    200 and a [reply] that is a string and not empty, whatever the cache
    and the remote call do. *)
Theorem well_shaped_body_gets_reply (rt : runtime) (request : HttpRequest)
    (b : pybytes) (text : pystr) (d : gmap (list N) value) (s : process) :
  method request = POST →
  body request = Ret b →
  Utf8.decode_bytes b = Some text →
  json_loads rt text = Ret (VDict d) →
  match d !! u "message" with
  | Some (VStr _) | None => True
  | Some v => truthy v = false
  end →
  ∃ reply s',
    chatbot_response rt request s
    = (Ret (JsonResponse [(u "reply", VStr reply)]), s')
    ∧ status_code (JsonResponse [(u "reply", VStr reply)]) = 200%Z
    ∧ reply ≠ [].
Proof.
  intros Hp Hr Hb Ht Hm.
  destruct (chatbot_response_well_shaped rt request b text d s Hp Hr Hb Ht Hm)
    as (reply & s' & Hrun & Hne).
  exists reply, s'. by rewrite Hrun.
Qed.

Lemma well_shaped_body_gets_reply_witness :
  ∃ reply s',
    chatbot_response (rt_failing false (u "timed out"))
      (Request POST (json_bytes "{'message': 'hello'}")) fresh
    = (Ret (JsonResponse [(u "reply", VStr reply)]), s')
    ∧ status_code (JsonResponse [(u "reply", VStr reply)]) = 200%Z
    ∧ reply ≠ [].
Proof.
  apply (well_shaped_body_gets_reply (rt_failing false (u "timed out"))
           (Request POST (json_bytes "{'message': 'hello'}"))
           (json_bytes "{'message': 'hello'}")
           (json_text "{'message': 'hello'}")
           {[ u "message" := VStr (u "hello") ]} fresh).
  - reflexivity.
  - vm_compute. reflexivity.
  - reflexivity.
  - vm_compute. reflexivity.
  - vm_compute. exact I.
Defined.

(** X7. On a POST whose body is read (within the upload limit, the read
    not failing), every message value that is false in a condition, the
    number 0, the float 0.0, the empty array and the empty object
    included, is taken for an empty message by [chatbot_response]: the
    answer is the nudge and the state is untouched. *)
Theorem falsy_message_gets_nudge (rt : runtime) (request : HttpRequest)
    (b : pybytes) (text : pystr) (d : gmap (list N) value) (v : value)
    (s : process) :
  method request = POST →
  body request = Ret b →
  Utf8.decode_bytes b = Some text →
  json_loads rt text = Ret (VDict d) →
  d !! u "message" = Some v →
  truthy v = false →
  chatbot_response rt request s
  = (Ret (JsonResponse [(u "reply", VStr nudge_reply)]), s).
Proof.
  intros Hp Hr Hb Ht Hv Hfalse.
  rewrite (chatbot_response_parsed rt request b text _ s Hp Hr Hb Ht). simpl.
  rewrite Hv. simpl. unfold py_or. by rewrite Hfalse.
Qed.

Lemma falsy_message_gets_nudge_witness :
  chatbot_response rt_falsy
    (Request POST (json_bytes "{'message': []}")) fresh
  = (Ret (JsonResponse [(u "reply", VStr nudge_reply)]), fresh).
Proof.
  apply (falsy_message_gets_nudge rt_falsy
           (Request POST (json_bytes "{'message': []}"))
           (json_bytes "{'message': []}")
           (json_text "{'message': []}")
           {[ u "message" := VList [] ]} (VList []) fresh).
  - reflexivity.
  - vm_compute. reflexivity.
  - reflexivity.
  - vm_compute. reflexivity.
  - vm_compute. reflexivity.
  - reflexivity.
Defined.

(** X8. A request whose method is not POST never reaches the body of
    [chatbot_response], [chat_send] or [chat_start]: the answer is 405
    with POST as the one permitted method, and neither the process state
    nor the session changes, whatever the request body is. *)
Theorem other_methods_get_405 (rt : runtime) (request : HttpRequest)
    (s : process) (uuid4 : pystr) (session : gmap (list N) value) :
  method request ≠ POST →
  chatbot_response rt request s = (Ret (HttpResponseNotAllowed [POST]), s)
  ∧ chat_send rt request s = (Ret (HttpResponseNotAllowed [POST]), s)
  ∧ chat_start uuid4 request session
    = (HttpResponseNotAllowed [POST], session)
  ∧ status_code (HttpResponseNotAllowed [POST]) = 405%Z.
Proof.
  intros Hm. unfold chatbot_response, chat_send, chat_start, require_POST.
  by destruct (method request).
Qed.

Lemma other_methods_get_405_witness :
  chatbot_response rt_online
    (Request GET (json_bytes "{'message': 'hello'}")) fresh
  = (Ret (HttpResponseNotAllowed [POST]), fresh)
  ∧ chat_send rt_online
      (Request GET (json_bytes "{'message': 'hello'}")) fresh
    = (Ret (HttpResponseNotAllowed [POST]), fresh)
  ∧ chat_start (u "0b5c8c5e-8f0e-4c1e-9f43-0a1c2d3e4f50")
      (Request GET (json_bytes "{'message': 'hello'}")) ∅
    = (HttpResponseNotAllowed [POST], ∅)
  ∧ status_code (HttpResponseNotAllowed [POST]) = 405%Z.
Proof.
  apply (other_methods_get_405 rt_online
           (Request GET (json_bytes "{'message': 'hello'}")) fresh
           (u "0b5c8c5e-8f0e-4c1e-9f43-0a1c2d3e4f50") ∅).
  simpl. discriminate.
Defined.

(** X9. [chat_send] and [chatbot_response] give the same outcome and
    leave the same state on every request, except where
    [chatbot_response] answers with the nudge: there [chat_send] calls
    the resolver with the empty string. *)
Theorem chat_send_differs_only_on_blank (rt : runtime)
    (request : HttpRequest) (s : process) :
  chat_send rt request s = chatbot_response rt request s
  ∨ (chatbot_response rt request s
     = (Ret (JsonResponse [(u "reply", VStr nudge_reply)]), s)
     ∧ chat_send rt request s
       = (let* reply := _llm_reply rt [] in
          ret (JsonResponse [(u "reply", VStr reply)])) s).
Proof.
  destruct (method request) eqn:Hm;
    try (left; unfold chat_send, chatbot_response, require_POST;
         by rewrite Hm).
  destruct (unparsed_or_parsed rt request)
    as [Hbad | (b & text & data & Hr & Hb & Ht)].
  - left. by rewrite chat_send_unparsed, chatbot_response_unparsed.
  - rewrite (chat_send_parsed rt request b text data s Hm Hr Hb Ht),
      (chatbot_response_parsed rt request b text data s Hm Hr Hb Ht).
    destruct (get data (u "message")) as [v|e]; [|by left].
    destruct (strip_method (py_or v (VStr []))) as [[|a msg]|e];
      [by right | by left | by left].
Qed.

(** X10. On a POST whose body is read (within the upload limit, the
    read not failing) and whose message is blank, [chat_send] with a
    client available sends a remote request whose user message is the
    empty string, where [chatbot_response] on the same request changes
    nothing. *)
Theorem chat_send_blank_calls_remote (rt : runtime) (request : HttpRequest)
    (b : pybytes) (text : pystr) (d : gmap (list N) value) (m : pystr)
    (s : process) (c : client) :
  method request = POST →
  body request = Ret b →
  Utf8.decode_bytes b = Some text →
  json_loads rt text = Ret (VDict d) →
  d !! u "message" = Some (VStr m) →
  strip m = [] →
  (_get_openai_client rt s).1 = Ret (Some c) →
  (∃ evs,
     trace (chat_send rt request s).2 = trace s ++ evs
     ∧ In (Call_create c (request_for [])) evs
     ∧ content <$> last (messages (request_for [])) = Some [])
  ∧ (chatbot_response rt request s).2 = s.
Proof.
  intros Hp Hr Hb Ht Hm Hstrip Hc. split.
  - rewrite (chat_send_parsed rt request b text _ s Hp Hr Hb Ht). simpl.
    rewrite Hm. simpl.
    assert (strip_method (py_or (VStr m) (VStr [])) = Ret []) as ->.
    { unfold py_or. destruct m; simpl; [done|]. by rewrite Hstrip. }
    rewrite reply_response_state.
    rewrite get_client_fst in Hc. injection Hc as Hc.
    destruct s as [ch tr]. simpl in Hc.
    destruct (llm_reply_events rt [] ch tr) as (tail & Htr & _ & Htail).
    rewrite Hc in Htail. eexists. split; [exact Htr|]. split; [|done].
    apply in_or_app. right. destruct Htail as [-> | ->]; by left.
  - by rewrite (chatbot_response_blank rt request b text d m s
                  Hp Hr Hb Ht Hm Hstrip).
Qed.

Lemma chat_send_blank_calls_remote_witness :
  (∃ evs,
     trace (chat_send rt_online
              (Request POST (json_bytes "{'message': '   '}")) fresh).2
     = trace fresh ++ evs
     ∧ In (Call_create the_client (request_for [])) evs
     ∧ content <$> last (messages (request_for [])) = Some [])
  ∧ (chatbot_response rt_online
       (Request POST (json_bytes "{'message': '   '}")) fresh).2 = fresh.
Proof.
  apply (chat_send_blank_calls_remote rt_online
           (Request POST (json_bytes "{'message': '   '}"))
           (json_bytes "{'message': '   '}")
           (json_text "{'message': '   '}")
           {[ u "message" := VStr (u "   ") ]} (u "   ") fresh the_client).
  - reflexivity.
  - vm_compute. reflexivity.
  - reflexivity.
  - vm_compute. reflexivity.
  - vm_compute. reflexivity.
  - vm_compute. reflexivity.
  - vm_compute. reflexivity.
Defined.

(** ** The health probe and the cache over whole runs *)

Section Runs.

Lemma settles_refl s : settles s s.
Proof.
exists []. rewrite app_nil_r. split; [done|].
destruct (_client_cache s); [by left | done].
Qed.

Lemma settles_trans s1 s2 s3 : settles s1 s2 → settles s2 s3 → settles s1 s3.
Proof.
intros (e1 & Ht1 & H1) (e2 & Ht2 & H2). exists (e1 ++ e2).
rewrite Ht2, Ht1, <- app_assoc. split; [done|].
rewrite constructions_app.
destruct (_client_cache s1) as [|c1].
- destruct H1 as [[Hc1 Hn1] | [[c Hc1] Hn1]]; rewrite Hc1 in H2.
  + destruct H2 as [[Hc2 Hn2] | [Hc2 Hn2]]; [left | right];
      (split; [done | lia]).
  + destruct H2 as [Hc2 Hn2]. right. split; [by eauto | lia].
- destruct H1 as [Hc1 Hn1]. rewrite Hc1 in H2. destruct H2 as [Hc2 Hn2].
  split; [done | lia].
Qed.

Lemma get_client_settles rt s : settles s (_get_openai_client rt s).2.
Proof.
destruct s as [ch tr]. rewrite get_client_eq.
exists (yield_events rt ch). split; [done|]. simpl.
destruct ch as [|c]; simpl.
- right. split; [by eauto | apply constructions_first_attempt].
- done.
Qed.

Lemma llm_reply_settles rt msg s : settles s (_llm_reply rt msg s).2.
Proof.
destruct s as [ch tr].
destruct (llm_reply_events rt msg ch tr) as (tail & Htr & Hch & Htail).
eexists. split; [exact Htr|]. rewrite Hch.
assert (constructions tail = 0%nat) as Hz.
{ destruct (yielded rt ch); [by destruct Htail as [-> | ->] | by subst]. }
change (Call_llm_reply msg :: yield_events rt ch)
  with ([Call_llm_reply msg] ++ yield_events rt ch).
rewrite !constructions_app, Hz.
change (constructions [Call_llm_reply msg]) with 0%nat.
destruct ch as [|c]; simpl.
- right. split; [by eauto|].
  pose proof (constructions_first_attempt rt). lia.
- done.
Qed.

Lemma chatbot_response_state rt request s :
(chatbot_response rt request s).2 = s
∨ ∃ msg, (chatbot_response rt request s).2 = (_llm_reply rt msg s).2.
Proof.
destruct (method request) eqn:Hm;
  try (left; unfold chatbot_response, require_POST; by rewrite Hm).
destruct (unparsed_or_parsed rt request)
  as [Hbad | (b & text & data & Hr & Hb & Ht)].
- left. by rewrite chatbot_response_unparsed.
- rewrite (chatbot_response_parsed rt request b text data s Hm Hr Hb Ht).
  destruct (get data (u "message")) as [v|e]; [|by left].
  destruct (strip_method (py_or v (VStr []))) as [[|a msg]|e];
    [by left | | by left].
  right. exists (a :: msg). apply reply_response_state.
Qed.

Lemma chat_send_state rt request s :
(chat_send rt request s).2 = s
∨ ∃ msg, (chat_send rt request s).2 = (_llm_reply rt msg s).2.
Proof.
destruct (method request) eqn:Hm;
  try (left; unfold chat_send, require_POST; by rewrite Hm).
destruct (unparsed_or_parsed rt request)
  as [Hbad | (b & text & data & Hr & Hb & Ht)].
- left. by rewrite chat_send_unparsed.
- rewrite (chat_send_parsed rt request b text data s Hm Hr Hb Ht).
  destruct (get data (u "message")) as [v|e]; [|by left].
  destruct (strip_method (py_or v (VStr []))) as [msg|e]; [|by left].
  right. exists msg. apply reply_response_state.
Qed.

Lemma chat_health_state rt request s :
(chat_health rt request s).2 = (_get_openai_client rt s).2.
Proof.
unfold chat_health, bind, ret.
by destruct (_get_openai_client rt s) as [[c|e] s'].
Qed.

Lemma serve_settles c s : settles s (serve c s).
Proof.
destruct c as [rt request | rt request | rt request]; simpl.
- destruct (chatbot_response_state rt request s) as [-> | [msg ->]];
    [apply settles_refl | apply llm_reply_settles].
- destruct (chat_send_state rt request s) as [-> | [msg ->]];
    [apply settles_refl | apply llm_reply_settles].
- rewrite chat_health_state. apply get_client_settles.
Qed.

Lemma serve_all_settles cs s : settles s (serve_all cs s).
Proof.
revert s. induction cs as [|c cs IH]; intros s; simpl.
- apply settles_refl.
- apply (settles_trans _ (serve c s)); [apply serve_settles | apply IH].
Qed.

End Runs.

(** X11. The health probe always answers (status 200, no exception). It
    goes through [_get_openai_client], so on an unbuilt cache it makes
    the one building attempt and leaves the cache filled;
    [client_initialized] tells whether the cache now holds a client; and
    when the probe itself built the client, it also reports the SDK as
    installed and a credential as present in the settings or in the
    environment. *)
Theorem chat_health_reports_cache (rt : runtime) (request : HttpRequest)
    (s : process) :
  ∃ data c,
    chat_health rt request s
    = (Ret (JsonResponse data), (_get_openai_client rt s).2)
    ∧ _client_cache (_get_openai_client rt s).2 = Cached c
    ∧ field data (u "client_initialized")
      = Some (VBool (bool_decide (is_Some c)))
    ∧ (_client_cache s = _SENTINEL → is_Some c →
       field data (u "sdk_installed") = Some (VBool true)
       ∧ (field data (u "has_key_in_settings") = Some (VBool true)
          ∨ field data (u "has_key_in_env") = Some (VBool true))).
Proof.
  destruct s as [ch tr]. unfold chat_health, bind, ret.
  rewrite get_client_eq. simpl.
  eexists _, (yielded rt ch). split; [done|]. split; [done|].
  split; [done|]. intros -> Hc. simpl in Hc.
  unfold first_attempt, resolve_key, key_or in Hc.
  destruct (OpenAI rt) as [new_client|]; [|by destruct Hc].
  split; [done|].
  change (field _ (u "has_key_in_settings"))
    with (Some (VBool (key_truthy (settings_OPENAI_API_KEY rt)))).
  change (field _ (u "has_key_in_env"))
    with (Some (VBool (key_truthy (getenv_OPENAI_API_KEY rt)))).
  destruct (key_truthy (settings_OPENAI_API_KEY rt)) eqn:Hs; [by left|].
  right. destruct (getenv_OPENAI_API_KEY rt) as [[|a k]|]; simpl;
    [by destruct Hc | done | by destruct Hc].
Qed.

(** X12. A health probe that reaches an unbuilt cache while the SDK or
    the credential is missing fixes the cache to "no client": from then
    on [_llm_reply] gives the offline reply under every runtime, a later
    one with a valid credential included, without constructing a client
    or calling the remote API. *)
Theorem probe_without_credential_disables_chat (rt : runtime)
    (request : HttpRequest) (tr : list event) :
  OpenAI rt = None ∨ key_truthy (resolve_key rt) = false →
  ∃ evs,
    (chat_health rt request (Process _SENTINEL tr)).2
    = Process (Cached None) (tr ++ evs)
    ∧ constructions evs = 0%nat
    ∧ ∀ rt' user_msg,
        _llm_reply rt' user_msg (Process (Cached None) (tr ++ evs))
        = (Ret offline_reply,
           Process (Cached None)
                   ((tr ++ evs) ++ [Call_llm_reply user_msg])).
Proof.
  intros H. rewrite chat_health_state, get_client_eq. simpl.
  assert (first_attempt rt = None
          ∧ constructions (first_attempt_events rt) = 0%nat) as [Hn Hz].
  { unfold first_attempt, first_attempt_events.
    destruct H as [-> | H]; [done|].
    destruct (OpenAI rt); [|done].
    by destruct (resolve_key rt) as [[|a k]|]. }
  rewrite Hn. exists (first_attempt_events rt).
  split; [done|]. split; [done|].
  intros rt' user_msg.
  by rewrite (llm_reply_offline rt' user_msg (Cached None)).
Qed.

Lemma probe_without_credential_disables_chat_witness :
  ∃ evs,
    (chat_health rt_offline (Request GET []) (Process _SENTINEL [])).2
    = Process (Cached None) ([] ++ evs)
    ∧ constructions evs = 0%nat
    ∧ ∀ rt' user_msg,
        _llm_reply rt' user_msg (Process (Cached None) ([] ++ evs))
        = (Ret offline_reply,
           Process (Cached None)
                   (([] ++ evs) ++ [Call_llm_reply user_msg])).
Proof.
  apply (probe_without_credential_disables_chat rt_offline
           (Request GET []) []).
  right. reflexivity.
Defined.

(** X13. However requests to [chatbot_response], [chat_send] and
    [chat_health] follow one another in a process, with any methods and
    bodies, under runtimes that may change from one request to the next,
    and whether the views return or raise: the trace only grows, the
    client constructor is called at most once in all, and a cache that
    is filled keeps its value for the rest of the run, with no further
    construction. *)
Theorem cache_settles_over_any_run (cs : list view_call) (s : process) :
  ∃ evs,
    trace (serve_all cs s) = trace s ++ evs
    ∧ (constructions evs ≤ 1)%nat
    ∧ (∀ c, _client_cache s = Cached c →
            _client_cache (serve_all cs s) = Cached c
            ∧ constructions evs = 0%nat).
Proof.
  destruct (serve_all_settles cs s) as (evs & Htr & H).
  exists evs. split; [exact Htr|].
  destruct (_client_cache s) as [|c0].
  - split; [|done]. destruct H as [[_ Hz] | [_ Hle]]; lia.
  - destruct H as [Hc Hz]. split; [lia|]. by intros c [= <-].
Qed.

(** ** The conversation id of the earlier widget *)

Lemma chat_cid_truthy (uuid4 : pystr) (session : gmap (list N) value) :
  uuid4 ≠ [] →
  truthy (py_or (default VNone (session !! u "chat_cid")) (VStr uuid4)) = true.
Proof.
  intros Hne. unfold py_or.
  destruct (truthy (default VNone (session !! u "chat_cid"))) eqn:E; [done|].
  simpl. by apply nonempty_true.
Qed.

(** X14. A POST to [chat_start] answers with a conversation id and
    stores that same id in the session under "chat_cid", leaving every
    other key of the session as it was. The id is the one already in the
    session when that is true in a condition, and a fresh UUID when the
    session has none or has one that is false in a condition. *)
Theorem chat_start_keeps_or_issues_id (uuid4 : pystr) (b : pybytes)
    (session : gmap (list N) value) :
  ∃ cid,
    chat_start uuid4 (Request POST b) session
    = (JsonResponse [(u "conversation_id", cid)],
       <[ u "chat_cid" := cid ]> session)
    ∧ (chat_start uuid4 (Request POST b) session).2 !! u "chat_cid"
      = Some cid
    ∧ (∀ k, k ≠ u "chat_cid" →
            (chat_start uuid4 (Request POST b) session).2 !! k
            = session !! k)
    ∧ (∀ v, session !! u "chat_cid" = Some v → truthy v = true → cid = v)
    ∧ (session !! u "chat_cid" = None → cid = VStr uuid4)
    ∧ (∀ v, session !! u "chat_cid" = Some v → truthy v = false →
            cid = VStr uuid4).
Proof.
  eexists. split; [reflexivity|]. simpl.
  split; [apply lookup_insert_eq|].
  split; [by intros k Hk; apply lookup_insert_ne|].
  unfold py_or. split; [|split].
  - intros v Hv Ht. rewrite Hv. simpl. by rewrite Ht.
  - by intros ->.
  - intros v Hv Ht. rewrite Hv. simpl. by rewrite Ht.
Qed.

(** X15. Starting a conversation twice in the same session gives the
    same id both times, and the second call leaves the session as the
    first one left it (a UUID string is never empty). *)
Theorem chat_start_is_idempotent (uuid1 uuid2 : pystr) (b1 b2 : pybytes)
    (session : gmap (list N) value) :
  uuid1 ≠ [] →
  chat_start uuid2 (Request POST b2)
    (chat_start uuid1 (Request POST b1) session).2
  = chat_start uuid1 (Request POST b1) session.
Proof.
  intros Hne. pose proof (chat_cid_truthy uuid1 session Hne) as Ht.
  unfold chat_start. simpl. rewrite lookup_insert_eq. simpl.
  unfold py_or at 1 3. rewrite Ht. by rewrite insert_insert_eq.
Qed.

Lemma chat_start_is_idempotent_witness :
  chat_start (u "7d9f3c1e-52a4-4a8b-9c0d-1e2f3a4b5c6d") (Request POST [])
    (chat_start (u "0b5c8c5e-8f0e-4c1e-9f43-0a1c2d3e4f50")
       (Request POST []) ∅).2
  = chat_start (u "0b5c8c5e-8f0e-4c1e-9f43-0a1c2d3e4f50")
      (Request POST []) ∅.
Proof.
  apply (chat_start_is_idempotent
           (u "0b5c8c5e-8f0e-4c1e-9f43-0a1c2d3e4f50")
           (u "7d9f3c1e-52a4-4a8b-9c0d-1e2f3a4b5c6d") [] [] ∅).
  vm_compute. discriminate.
Defined.

(** ** The masked preview, in general *)

(** X16. The preview [_mask] gives is never empty and never longer than
    9 characters, and two credentials of more than 8 characters that
    begin with the same four characters and end with the same four have
    the same preview: nothing of the middle shows, not even its
    length. *)
Theorem mask_is_short_and_hides_middle (s : pystr) :
  _mask s ≠ []
  ∧ (length (_mask s) ≤ 9)%nat
  ∧ (∀ s' : pystr,
       (8 < length s)%nat → (8 < length s')%nat →
       take 4 s = take 4 s' →
       drop (length s - 4) s = drop (length s' - 4) s' →
       _mask s = _mask s').
Proof.
  assert ((8 < length s)%nat ∨ (0 < length s ≤ 8)%nat ∨ s = []) as Hcase.
  { destruct s; [by right; right|]. simpl. lia. }
  split; [|split].
  - destruct Hcase as [H | [H | ->]].
    + intros Heq. pose proof (mask_long_length s H) as Hl.
      rewrite Heq in Hl. simpl in Hl. lia.
    + by rewrite (mask_short s H).
    + done.
  - destruct Hcase as [H | [H | ->]].
    + rewrite (mask_long_length s H). lia.
    + rewrite (mask_short s H). vm_compute. lia.
    + vm_compute. lia.
  - intros s' H H' Ht Hd. rewrite (mask_long s H), (mask_long s' H').
    by rewrite Ht, Hd.
Qed.

(** ** The contact form *)

Section ContactView.

Import Contact.

(** The view on a valid inquiry that is not spam, step by step. *)
Lemma contact_submit_run rt request cd out :
method request = POST →
ContactForm rt request = Some cd →
hp cd = [] →
contact_submit rt request out
= match render_to_string rt (u "emails/contact_email_client.html") cd with
  | Raise e => (Raise e, out)
  | Ret h1 =>
  match render_to_string rt (u "emails/contact_email_client.txt") cd with
  | Raise e => (Raise e, out)
  | Ret t1 =>
  match send rt (msg_client rt cd h1 t1) with
  | Raise e => (Raise e, out ++ [msg_client rt cd h1 t1])
  | Ret _ =>
  match render_to_string rt (u "emails/contact_email_team.html") cd with
  | Raise e => (Raise e, out ++ [msg_client rt cd h1 t1])
  | Ret h2 =>
  match render_to_string rt (u "emails/contact_email_team.txt") cd with
  | Raise e => (Raise e, out ++ [msg_client rt cd h1 t1])
  | Ret t2 =>
  match send rt (msg_team rt cd h2 t2) with
  | Raise e =>
    (Raise e, out ++ [msg_client rt cd h1 t1; msg_team rt cd h2 t2])
  | Ret _ =>
    (Ret (Redirect (u "/#contact?ok=1")),
     out ++ [msg_client rt cd h1 t1; msg_team rt cd h2 t2])
  end end end end end end.
Proof.
intros Hm Hf Hhp. unfold contact_submit. rewrite Hm, Hf, Hhp. simpl.
unfold mail_bind, pure, send_message, mail_ret.
destruct (render_to_string rt (u "emails/contact_email_client.html") cd)
  as [h1|e]; [|done].
destruct (render_to_string rt (u "emails/contact_email_client.txt") cd)
  as [t1|e]; [|done].
destruct (send rt (msg_client rt cd h1 t1)) as [[]|e]; [|done].
destruct (render_to_string rt (u "emails/contact_email_team.html") cd)
  as [h2|e]; [|done].
destruct (render_to_string rt (u "emails/contact_email_team.txt") cd)
  as [t2|e]; [|done].
by destruct (send rt (msg_team rt cd h2 t2)) as [[]|e];
  rewrite <- app_assoc.
Qed.

(** The view on everything else. *)
Lemma contact_submit_rejects rt request out :
method request ≠ POST ∨ ContactForm rt request = None
∨ (∃ cd, ContactForm rt request = Some cd ∧ hp cd ≠ []) →
∃ url,
  contact_submit rt request out = (Ret (Redirect url), out)
  ∧ (url = u "/#contact" ∨ url = u "/#contact?ok=0").
Proof.
intros H. unfold contact_submit, mail_ret.
destruct (method request) eqn:Hm; try (by eauto).
destruct H as [H | [-> | (cd & -> & Hhp)]]; [done | by eauto |].
apply nonempty_true in Hhp. rewrite Hhp. by eauto.
Qed.

Lemma redirect_ok1_differs :
u "/#contact?ok=1" ≠ u "/#contact" ∧ u "/#contact?ok=1" ≠ u "/#contact?ok=0".
Proof. by vm_compute. Qed.

End ContactView.

Section ContactProperties.

Import Contact.

Lemma outbox_unchanged {R} (r : R) (out : list EmailMultiAlternatives)
  (from : pystr) (Q : Prop) :
∃ sent,
  (r, out).2 = out ++ sent
  ∧ (length sent ≤ 2)%nat
  ∧ Forall (λ m, from_email m = from) sent
  ∧ (sent ≠ [] → Q).
Proof.
exists []. rewrite app_nil_r. split; [done|]. split; [simpl; lia|].
split; [constructor | by intros []].
Qed.

Lemma outbox_grown {R} (r : R) (out sent : list EmailMultiAlternatives)
  (from : pystr) (Q : Prop) :
(length sent ≤ 2)%nat →
Forall (λ m, from_email m = from) sent →
Q →
∃ sent',
  (r, out ++ sent).2 = out ++ sent'
  ∧ (length sent' ≤ 2)%nat
  ∧ Forall (λ m, from_email m = from) sent'
  ∧ (sent' ≠ [] → Q).
Proof. intros Hl Hf HQ. by exists sent. Qed.

(** X17. [contact_submit] hands at most two messages to the mail
    server, each with [DEFAULT_FROM_EMAIL] as sender, and hands over
    none at all unless the request is a POST whose form is valid and
    whose honeypot field is empty: a GET, an invalid form and a filled
    honeypot never cause mail. *)
Theorem contact_submit_mails_only_valid_inquiries (rt : runtime)
    (request : HttpRequest) (out : list EmailMultiAlternatives) :
  ∃ sent,
    (contact_submit rt request out).2 = out ++ sent
    ∧ (length sent ≤ 2)%nat
    ∧ Forall (λ m, from_email m = DEFAULT_FROM_EMAIL rt) sent
    ∧ (sent ≠ [] →
       method request = POST
       ∧ ∃ cd, ContactForm rt request = Some cd ∧ hp cd = []).
Proof.
  destruct (method request) eqn:Hm;
    try (destruct (contact_submit_rejects rt request out) as (url & -> & _);
         [left; by rewrite Hm | apply outbox_unchanged]).
  destruct (ContactForm rt request) as [cd|] eqn:Hf;
    [|destruct (contact_submit_rejects rt request out) as (url & -> & _);
      [by right; left | apply outbox_unchanged]].
  destruct (hp cd) as [|a k] eqn:Hhp;
    [|destruct (contact_submit_rejects rt request out) as (url & -> & _);
      [right; right; exists cd; by rewrite Hhp | apply outbox_unchanged]].
  assert (POST = POST ∧ ∃ cd0, Some cd = Some cd0 ∧ hp cd0 = [])
    as Hvalid by eauto.
  rewrite (contact_submit_run rt request cd out Hm Hf Hhp).
  destruct (render_to_string rt (u "emails/contact_email_client.html") cd)
    as [h1|e]; [|apply outbox_unchanged].
  destruct (render_to_string rt (u "emails/contact_email_client.txt") cd)
    as [t1|e]; [|apply outbox_unchanged].
  destruct (send rt (msg_client rt cd h1 t1)) as [[]|e];
    [|apply outbox_grown; [simpl; lia | by repeat constructor | done]].
  destruct (render_to_string rt (u "emails/contact_email_team.html") cd)
    as [h2|e];
    [|apply outbox_grown; [simpl; lia | by repeat constructor | done]].
  destruct (render_to_string rt (u "emails/contact_email_team.txt") cd)
    as [t2|e];
    [|apply outbox_grown; [simpl; lia | by repeat constructor | done]].
  destruct (send rt (msg_team rt cd h2 t2)) as [[]|e];
    apply outbox_grown; (simpl; lia) || (by repeat constructor) || done.
Qed.

(** X18. [contact_submit] redirects to "/#contact?ok=1" only after both
    messages were accepted by the mail server: first the
    acknowledgement, addressed to the sender of the form, then the team
    notification, addressed to [CONTACT_RECIPIENT] (hello@liorae.co when
    the setting is absent) with the sender as reply-to; the subject of
    the notification names the company, or "No company" when the company
    field is blank. *)
Theorem contact_submit_success_means_both_sent (rt : runtime)
    (request : HttpRequest) (out out' : list EmailMultiAlternatives) :
  contact_submit rt request out
  = (Ret (Redirect (u "/#contact?ok=1")), out') →
  ∃ cd m1 m2,
    method request = POST
    ∧ ContactForm rt request = Some cd ∧ hp cd = []
    ∧ out' = out ++ [m1; m2]
    ∧ send rt m1 = Ret tt ∧ send rt m2 = Ret tt
    ∧ to m1 = [email cd]
    ∧ to m2 = [default (u "hello@liorae.co") (CONTACT_RECIPIENT rt)]
    ∧ reply_to m2 = [email cd]
    ∧ subject m2 = subject_team cd
    ∧ (strip (company cd) = [] →
       subject m2 = u "[New Inquiry] " ++ full_name cd ++ u " — No company").
Proof.
  intros H.
  assert (∀ url, url = u "/#contact" ∨ url = u "/#contact?ok=0" →
                 (Ret (Redirect url), out)
                 ≠ (Ret (Redirect (u "/#contact?ok=1")), out')) as Hno.
  { intros url Hurl [= Heq _]. destruct redirect_ok1_differs as [H1 H2].
    by destruct Hurl; subst. }
  destruct (method request) eqn:Hm;
    try (destruct (contact_submit_rejects rt request out)
           as (url & Hr & Hurl);
         [left; by rewrite Hm | rewrite Hr in H; by destruct (Hno url)]).
  destruct (ContactForm rt request) as [cd|] eqn:Hf;
    [|destruct (contact_submit_rejects rt request out) as (url & Hr & Hurl);
      [by right; left | rewrite Hr in H; by destruct (Hno url)]].
  destruct (hp cd) as [|a k] eqn:Hhp;
    [|destruct (contact_submit_rejects rt request out) as (url & Hr & Hurl);
      [right; right; exists cd; by rewrite Hhp
      | rewrite Hr in H; by destruct (Hno url)]].
  rewrite (contact_submit_run rt request cd out Hm Hf Hhp) in H.
  destruct (render_to_string rt (u "emails/contact_email_client.html") cd)
    as [h1|e]; [|done].
  destruct (render_to_string rt (u "emails/contact_email_client.txt") cd)
    as [t1|e]; [|done].
  destruct (send rt (msg_client rt cd h1 t1)) as [[]|e] eqn:Hs1; [|done].
  destruct (render_to_string rt (u "emails/contact_email_team.html") cd)
    as [h2|e]; [|done].
  destruct (render_to_string rt (u "emails/contact_email_team.txt") cd)
    as [t2|e]; [|done].
  destruct (send rt (msg_team rt cd h2 t2)) as [[]|e] eqn:Hs2; [|done].
  injection H as <-.
  exists cd, (msg_client rt cd h1 t1), (msg_team rt cd h2 t2).
  repeat split; try done.
  intros Hblank. simpl. unfold subject_team. by rewrite Hblank.
Qed.

Lemma contact_submit_success_means_both_sent_witness :
  ∃ cd m1 m2,
    method (Request POST []) = POST
    ∧ ContactForm (rt_example (inquiry (u "  ") []) true) (Request POST [])
      = Some cd
    ∧ hp cd = []
    ∧ (contact_submit (rt_example (inquiry (u "  ") []) true)
         (Request POST []) []).2
      = [] ++ [m1; m2]
    ∧ send (rt_example (inquiry (u "  ") []) true) m1 = Ret tt
    ∧ send (rt_example (inquiry (u "  ") []) true) m2 = Ret tt
    ∧ to m1 = [email cd]
    ∧ to m2 = [default (u "hello@liorae.co")
                 (CONTACT_RECIPIENT (rt_example (inquiry (u "  ") []) true))]
    ∧ reply_to m2 = [email cd]
    ∧ subject m2 = subject_team cd
    ∧ (strip (company cd) = [] →
       subject m2 = u "[New Inquiry] " ++ full_name cd ++ u " — No company").
Proof.
  apply (contact_submit_success_means_both_sent
           (rt_example (inquiry (u "  ") []) true) (Request POST []) []).
  vm_compute. reflexivity.
Defined.

(** X19. When the mail server refuses the acknowledgement, the
    exception leaves the view: there is no redirect, and the team
    notification is never handed to the mail server. *)
Theorem contact_submit_stops_when_ack_fails (rt : runtime) (b : pybytes)
    (cd : cleaned_data) (h1 t1 : pystr) (e : exn)
    (out : list EmailMultiAlternatives) :
  ContactForm rt (Request POST b) = Some cd →
  hp cd = [] →
  render_to_string rt (u "emails/contact_email_client.html") cd = Ret h1 →
  render_to_string rt (u "emails/contact_email_client.txt") cd = Ret t1 →
  send rt (msg_client rt cd h1 t1) = Raise e →
  contact_submit rt (Request POST b) out
  = (Raise e, out ++ [msg_client rt cd h1 t1])
  ∧ to (msg_client rt cd h1 t1) = [email cd]
  ∧ ∀ h2 t2, ¬ In (msg_team rt cd h2 t2)
                 (drop (length out)
                       (contact_submit rt (Request POST b) out).2).
Proof.
  intros Hf Hhp Hh Ht Hs.
  rewrite (contact_submit_run rt (Request POST b) cd out eq_refl Hf Hhp),
    Hh, Ht, Hs.
  split; [done|]. split; [done|].
  intros h2 t2. simpl. rewrite drop_app_length. simpl.
  intros [Heq | []]. apply (f_equal reply_to) in Heq. done.
Qed.

Lemma contact_submit_stops_when_ack_fails_witness :
  contact_submit (rt_example (inquiry (u "Acme") []) false)
    (Request POST []) []
  = (Raise (Exn "SMTPException" (u "connection refused")),
     [] ++ [msg_client (rt_example (inquiry (u "Acme") []) false)
              (inquiry (u "Acme") [])
              (u "emails/contact_email_client.html")
              (u "emails/contact_email_client.txt")])
  ∧ to (msg_client (rt_example (inquiry (u "Acme") []) false)
          (inquiry (u "Acme") [])
          (u "emails/contact_email_client.html")
          (u "emails/contact_email_client.txt"))
    = [email (inquiry (u "Acme") [])]
  ∧ ∀ h2 t2,
      ¬ In (msg_team (rt_example (inquiry (u "Acme") []) false)
              (inquiry (u "Acme") []) h2 t2)
           (drop (length (@nil EmailMultiAlternatives))
                 (contact_submit (rt_example (inquiry (u "Acme") []) false)
                    (Request POST []) []).2).
Proof.
  apply (contact_submit_stops_when_ack_fails
           (rt_example (inquiry (u "Acme") []) false) []
           (inquiry (u "Acme") [])
           (u "emails/contact_email_client.html")
           (u "emails/contact_email_client.txt")
           (Exn "SMTPException" (u "connection refused")) []);
    reflexivity.
Defined.

End ContactProperties.

(** ** Bodies that cannot be read *)

(** X20. A POST whose body is longer than the upload limit, or whose
    read from the connection fails, is answered like a body that is not
    JSON: [request.body] raises inside the [try], so [chatbot_response]
    and [chat_send] both return 400 "Invalid JSON", nothing is parsed
    and the process state is untouched. *)
Theorem unreadable_body_gets_400 (rt : runtime) (request : HttpRequest)
    (s : process) :
  method request = POST →
  (DATA_UPLOAD_MAX_MEMORY_SIZE < N.of_nat (length (sent request)))%N
  ∨ read_fails request = true →
  (∃ e, body request = Raise e)
  ∧ chatbot_response rt request s
    = (Ret (HttpResponseBadRequest (u "Invalid JSON")), s)
  ∧ chat_send rt request s
    = (Ret (HttpResponseBadRequest (u "Invalid JSON")), s).
Proof.
  intros Hm H.
  assert (∃ e, body request = Raise e) as [e He].
  { destruct H as [H | H]; [by rewrite (body_too_big request H); eauto|].
    unfold body. rewrite H.
    destruct (DATA_UPLOAD_MAX_MEMORY_SIZE
              <? N.of_nat (length (sent request)))%N; eauto. }
  split; [by eauto|]. split.
  - apply chatbot_response_unparsed; [done | by rewrite He].
  - apply chat_send_unparsed; [done | by rewrite He].
Qed.

Lemma unreadable_body_gets_400_witness :
  (∃ e, body (Request POST oversized_blank) = Raise e)
  ∧ chatbot_response rt_online (Request POST oversized_blank) fresh
    = (Ret (HttpResponseBadRequest (u "Invalid JSON")), fresh)
  ∧ chat_send rt_online (Request POST oversized_blank) fresh
    = (Ret (HttpResponseBadRequest (u "Invalid JSON")), fresh).
Proof.
  apply (unreadable_body_gets_400 rt_online (Request POST oversized_blank)
           fresh).
  - reflexivity.
  - left. apply oversized_body. vm_compute. discriminate.
Defined.
